(** * Cosmetics fraud chatbot: the digest builder and the chat flow of [app.py]

    A shallow embedding of [app.py]: the dataset digest
    ([get_dataset_summary]), the chat request handler ([chat_route]) and the
    reset handler ([clear_chat]), with the properties the specification
    states about them.

    Conventions of the embedding.
    - Python exceptions are explicit: a computation that may raise returns a
      [result], and the handlers thread the process state (the two module
      globals [df] and [conversation_history]) explicitly.
    - Python [str] values are byte strings holding the UTF-8 encoding of the
      source text.
    - A floating point number is the rational it denotes ([Q]), and every
      arithmetic operation on floats rounds its exact result to binary64,
      to nearest with ties to even ([Float64.rnd]). Infinities, NaN as a
      value and the sign of zero are not represented; a NaN result of a
      pandas reduction is [None].
    - The table read from the spreadsheet is a typed table: the fraud flag is
      an integer column without blank cells (int64, its sums taken to stay in
      range), the six categorical columns hold text or a blank cell, the two
      numeric columns hold the value of a double or a blank cell. *)

From Stdlib Require Import String Ascii List ZArith QArith Qround Qabs Qpower.
From Stdlib Require Import Lia Lqa Bool Sorted Permutation DecimalString.
Import ListNotations.

Open Scope string_scope.

(* ================================================================== *)
(** * Double precision arithmetic *)
(* ================================================================== *)

Module Float64.

(** Rounding to the nearest integer, ties to the even one. *)
Definition round_half_even (q : Q) : Z :=
  let f := Qfloor q in
  match (q - inject_Z f ?= 1 # 2)%Q with
  | Lt => f
  | Gt => (f + 1)%Z
  | Eq => if Z.even f then f else (f + 1)%Z
  end.

Definition pow2 (e : Z) : Q := (2 ^ e)%Q.

(** The integer part of the binary logarithm of a positive rational. *)
Definition ilog2 (q : Q) : Z :=
  let e0 := (Z.log2 (Qnum q) - Z.log2 (Z.pos (Qden q)))%Z in
  if Qle_bool (pow2 e0) q then e0 else (e0 - 1)%Z.

(** The exponent of the unit in the last place of [q] in binary64: 53 bits
    of precision, and the smallest exponent -1074 of the subnormal range. *)
Definition ulp_exp (q : Q) : Z := Z.max (ilog2 (Qabs q) - 52) (-1074).

(** The double nearest to [q], ties to the even significand. *)
Definition rnd (q : Q) : Q :=
  if Qeq_bool q 0 then 0%Q
  else Qred (inject_Z (round_half_even (q / pow2 (ulp_exp q)))
             * pow2 (ulp_exp q)).

(** The conversion of an integer (a Python [int] or an int64) to a float. *)
Definition of_int (z : Z) : Q := rnd (inject_Z z).

Definition add (a b : Q) : Q := rnd (a + b).
Definition sub (a b : Q) : Q := rnd (a - b).
Definition mul (a b : Q) : Q := rnd (a * b).
Definition div (a b : Q) : Q := rnd (a / b).

(** [rint]: the nearest integer, ties to even; it is always a double. *)
Definition rint (q : Q) : Q := inject_Z (round_half_even q).

End Float64.

Import Float64.

(* ================================================================== *)
(** * Python runtime: exceptions and formatting *)
(* ================================================================== *)

Module Py.

(** The exceptions the modelled code could raise. *)
Inductive exn : Type :=
| ZeroDivisionError
| KeyError (key : string)
| IndexError.

Inductive result (A : Type) : Type :=
| Ok (a : A)
| Raise (e : exn).

Arguments Ok {A} a.
Arguments Raise {A} e.

Definition bind {A B : Type} (m : result A) (k : A -> result B) : result B :=
  match m with
  | Ok a => k a
  | Raise e => Raise e
  end.

Fixpoint mapM {A B : Type} (f : A -> result B) (l : list A) : result (list B) :=
  match l with
  | [] => Ok []
  | x :: xs =>
      bind (f x) (fun y => bind (mapM f xs) (fun ys => Ok (y :: ys)))
  end.

(** [a / b] on floats: a zero divisor raises, the quotient is rounded. *)
Definition truediv (a b : Q) : result Q :=
  if Qeq_bool b 0 then Raise ZeroDivisionError else Ok (Float64.div a b).

(** [str(n)] for integers. *)
Definition str_nat (n : nat) : string :=
  NilEmpty.string_of_uint (Nat.to_uint n).

Definition str_int (z : Z) : string :=
  NilZero.string_of_int (Z.to_int z).

(** Left padding with zeros up to [width] characters. *)
Fixpoint zeros (n : nat) : string :=
  match n with
  | O => ""
  | S k => "0" ++ zeros k
  end.

Definition zfill (width : nat) (s : string) : string :=
  zeros (width - String.length s) ++ s.

(** [f"{n:,}"]: decimal digits in groups of three separated by commas. *)
Fixpoint group_thousands (fuel : nat) (n : Z) : string :=
  match fuel with
  | O => str_int n
  | S fuel' =>
      if (n <? 1000)%Z then str_int n
      else group_thousands fuel' (n / 1000)
           ++ "," ++ zfill 3 (str_int (n mod 1000))
  end.

Definition format_commas (n : nat) : string :=
  group_thousands (S (Z.to_nat (Z.log2 (Z.of_nat n)))) (Z.of_nat n).

Definition pow10 (d : nat) : Z := (10 ^ Z.of_nat d)%Z.

(** [f"{q:.<d>f}"]: fixed-point notation with [d] decimals, the exact
    value of the float rounded half to even; the sign of a negative number
    is kept even when it rounds to zero. *)
Definition format_fixed (d : nat) (q : Q) : string :=
  let scaled := round_half_even (Qabs q * inject_Z (pow10 d))%Q in
  let sign := if Qle_bool 0 q then "" else "-" in
  let whole := str_int (scaled / pow10 d) in
  match d with
  | O => sign ++ whole
  | S _ => sign ++ whole ++ "." ++ zfill d (str_int (scaled mod pow10 d))
  end.

(** A float that may be NaN ([None]), formatted with [d] decimals. *)
Definition format_fixed_nan (d : nat) (x : option Q) : string :=
  match x with
  | Some q => format_fixed d q
  | None => "nan"
  end.

(** [str(x)] for a float [x] produced by [round(2)], the double nearest to
    a number of hundredths: the shortest decimal that reads back as [x] is
    that number of hundredths, printed with at least one decimal. *)
Definition str_float2 (q : Q) : string :=
  let m := round_half_even (Qabs q * 100)%Q in
  let sign := if Qle_bool 0 q then "" else "-" in
  let whole := str_int (m / 100) in
  let frac := (m mod 100)%Z in
  sign ++ whole ++ "." ++
    (if (frac mod 10 =? 0)%Z then str_int (frac / 10)
     else zfill 2 (str_int frac)).

End Py.

Import Py.

Notation "x <- m ;; k" := (Py.bind m (fun x => k))
  (at level 61, m at next level, right associativity).

(* ================================================================== *)
(** * The pandas operations the digest uses *)
(* ================================================================== *)

Module Series.

(** A cell of a text column: a label, or a blank cell (NaN). *)
Definition label : Type := option string.

(** A series of counts or of percentages, indexed by label, in order. *)
Definition indexed (A : Type) : Type := list (string * A).

Definition keys {A : Type} (s : indexed A) : list string := map fst s.

(** ** [value_counts()]

    Modelled from the spec: [value_counts] is pandas code, which the
    repository does not contain. The specification (4.2, step 4, and the
    open question of section 9) describes it as grouping by value in
    descending order of count, groups of equal count staying in the stable
    order of first occurrence; blank cells are not counted, which is the
    default of pandas. Accordingly the distinct labels are tallied in the
    order in which they first occur ([tally]), and the tallies are sorted by
    descending count with a stable insertion sort ([sort_desc]). *)

(** One more occurrence of [k]: its tally is incremented in place, and a
    label not seen before is added at the end. *)
Fixpoint bump (k : string) (acc : indexed nat) : indexed nat :=
  match acc with
  | [] => [(k, 1%nat)]
  | (k', c) :: rest =>
      if String.eqb k k' then (k', S c) :: rest
      else (k', c) :: bump k rest
  end.

Definition tally_cell (acc : indexed nat) (x : label) : indexed nat :=
  match x with
  | Some k => bump k acc
  | None => acc
  end.

Definition tally (col : list label) : indexed nat :=
  fold_left tally_cell col [].

(** Stable insertion by descending count: the new entry goes in front of the
    first entry whose count is not larger. *)
Fixpoint insert_desc (x : string * nat) (l : indexed nat) : indexed nat :=
  match l with
  | [] => [x]
  | y :: ys =>
      if (snd y <=? snd x)%nat then x :: y :: ys
      else y :: insert_desc x ys
  end.

Definition sort_desc (l : indexed nat) : indexed nat :=
  fold_right insert_desc [] l.

Definition value_counts (col : list label) : indexed nat :=
  sort_desc (tally col).

(** [head(n)]. *)
Definition head {A : Type} (n : nat) (s : list A) : list A := firstn n s.

(** [round(2)] on a float, as numpy does it: multiply by 100, round to
    the nearest integer, divide by 100, each step in double precision. *)
Definition round2 (q : Q) : Q :=
  Float64.div (Float64.rint (Float64.mul q 100)) 100.

(** [(counts / n * 100).round(2)]: element-wise, the index is kept; the
    counts and [n] are converted to floats. *)
Definition percentages (counts : indexed nat) (n : nat) : indexed Q :=
  map (fun kc : string * nat =>
         (fst kc,
          round2 (Float64.mul
                    (Float64.div (Float64.of_int (Z.of_nat (snd kc)))
                                 (Float64.of_int (Z.of_nat n)))
                    100)))
      counts.

(** [s[k]]: the value at label [k]; a label that is not in the index raises
    [KeyError]. *)
Fixpoint getitem {A : Type} (s : indexed A) (k : string) : result A :=
  match s with
  | [] => Raise (KeyError k)
  | (k', v) :: rest => if String.eqb k k' then Ok v else getitem rest k
  end.

(** ** Reductions of a numeric column; blank cells (NaN) are skipped. *)

Fixpoint dropna (col : list (option Q)) : list Q :=
  match col with
  | [] => []
  | Some q :: rest => q :: dropna rest
  | None :: rest => dropna rest
  end.

Definition Qsum (l : list Q) : Q := fold_right Qplus 0%Q l.

(** Blank cells replaced by 0, as pandas does before it sums. *)
Definition fillna0 (col : list (option Q)) : list Q :=
  map (fun x => match x with Some q => q | None => 0%Q end) col.

(** The summation numpy applies to a contiguous array of doubles: fewer
    than 8 elements are added from left to right; up to 128 elements are
    added into eight running sums, which are then combined, the elements
    beyond the last full group of eight being added in order; a longer
    array is split in two near the middle, at a multiple of eight. *)
Fixpoint add8 (r chunk : list Q) : list Q :=
  match r, chunk with
  | x :: r', y :: chunk' => Float64.add x y :: add8 r' chunk'
  | _, _ => r
  end.

Fixpoint accumulate8 (fuel : nat) (r rest : list Q) : list Q :=
  match fuel with
  | O => r
  | S fuel' =>
      match rest with
      | [] => r
      | _ => accumulate8 fuel' (add8 r (firstn 8 rest)) (skipn 8 rest)
      end
  end.

Definition combine8 (r : list Q) : Q :=
  match r with
  | [r0; r1; r2; r3; r4; r5; r6; r7] =>
      Float64.add
        (Float64.add (Float64.add r0 r1) (Float64.add r2 r3))
        (Float64.add (Float64.add r4 r5) (Float64.add r6 r7))
  | _ => 0%Q
  end.

Definition block_sum (l : list Q) : Q :=
  let n := length l in
  let full := (n - n mod 8)%nat in
  let r := accumulate8 n (firstn 8 l) (skipn 8 (firstn full l)) in
  fold_left Float64.add (skipn full l) (combine8 r).

Fixpoint pairwise_sum (fuel : nat) (l : list Q) : Q :=
  let n := length l in
  if (n <? 8)%nat then fold_left Float64.add l 0%Q
  else if (n <=? 128)%nat then block_sum l
  else
    match fuel with
    | O => block_sum l
    | S fuel' =>
        let n2 := (n / 2 - (n / 2) mod 8)%nat in
        Float64.add (pairwise_sum fuel' (firstn n2 l))
                    (pairwise_sum fuel' (skipn n2 l))
    end.

(** [sum()]: blank cells count as 0, so the sum is 0 when no value is
    left. *)
Definition sum (col : list (option Q)) : Q :=
  pairwise_sum (length col) (fillna0 col).

(** [mean()]: the sum over the number of values; NaN when no value is
    left. *)
Definition mean (col : list (option Q)) : option Q :=
  match dropna col with
  | [] => None
  | vs => Some (Float64.div (sum col)
                            (Float64.of_int (Z.of_nat (length vs))))
  end.

Definition Qmin (a b : Q) : Q := if Qle_bool a b then a else b.
Definition Qmax (a b : Q) : Q := if Qle_bool a b then b else a.

Definition min (col : list (option Q)) : option Q :=
  match dropna col with
  | [] => None
  | v :: vs => Some (fold_left Qmin vs v)
  end.

Definition max (col : list (option Q)) : option Q :=
  match dropna col with
  | [] => None
  | v :: vs => Some (fold_left Qmax vs v)
  end.

Fixpoint insert_asc (x : Q) (l : list Q) : list Q :=
  match l with
  | [] => [x]
  | y :: ys => if Qle_bool x y then x :: y :: ys else y :: insert_asc x ys
  end.

Definition sort_asc (l : list Q) : list Q := fold_right insert_asc [] l.

(** [median()]: the middle value of the sorted values, or the mean of the
    two middle ones; NaN when no value is left. *)
Definition median (col : list (option Q)) : option Q :=
  let vs := sort_asc (dropna col) in
  let n := length vs in
  match n with
  | O => None
  | _ =>
      if Nat.even n
      then Some (Float64.div
                   (Float64.add (nth (n / 2 - 1) vs 0%Q) (nth (n / 2) vs 0%Q))
                   2)
      else Some (nth (n / 2) vs 0%Q)
  end.

(** [sum()] of an integer column; the sums are taken to stay within
    int64. *)
Definition sum_int (col : list Z) : Z := fold_right Z.add 0%Z col.

End Series.

(* ================================================================== *)
(** * The dataset *)
(* ================================================================== *)

(** One row of the table, with the columns the digest reads. The other
    columns of the sheet (identifiers, date, time, SKU, IP address, footfall)
    are only ever looked at by name, through [columns]. *)
Record TransactionRow : Type := mkRow {
  Fraud_Flag : Z;
  Customer_Loyalty_Tier : Series.label;
  Payment_Method : Series.label;
  Product_Category : Series.label;
  Store_ID : Series.label;
  Location : Series.label;
  Device_Type : Series.label;
  Purchase_Amount : option Q;
  Customer_Age : option Q
}.

(** A data frame: the names of the columns that exist and the rows. A field
    of a row whose column does not exist is never read: reading a column goes
    through [column], which raises [KeyError] for a name that is not in
    [columns]. *)
Record DataFrame : Type := mkFrame {
  columns : list string;
  rows : list TransactionRow
}.

(** [name in df.columns]. *)
Definition has_column (name : string) (d : DataFrame) : bool :=
  existsb (String.eqb name) (columns d).

(** [len(df)]. *)
Definition len (d : DataFrame) : nat := length (rows d).

(** [df[name]], read through the field [proj] of the rows. *)
Definition column {A : Type} (d : DataFrame) (name : string)
    (proj : TransactionRow -> A) : result (list A) :=
  if has_column name d then Ok (map proj (rows d))
  else Raise (KeyError name).

(** [df[mask]]: the rows at which the mask is true, all columns kept. *)
Fixpoint select_rows (rs : list TransactionRow) (mask : list bool)
    : list TransactionRow :=
  match rs, mask with
  | r :: rs', b :: mask' =>
      if b then r :: select_rows rs' mask' else select_rows rs' mask'
  | _, _ => []
  end.

Definition select (d : DataFrame) (mask : list bool) : DataFrame :=
  mkFrame (columns d) (select_rows (rows d) mask).

(** [pd.DataFrame()]: no column, no row. *)
Definition empty_frame : DataFrame := mkFrame [] [].

(* ================================================================== *)
(** * The digest builder: [get_dataset_summary] *)
(* ================================================================== *)

Definition nl : string := "
".

(** [df['Fraud_Flag'].sum() if 'Fraud_Flag' in df.columns else 0] *)
Definition fraud_count (d : DataFrame) : result Z :=
  if has_column "Fraud_Flag" d then
    flags <- column d "Fraud_Flag" Fraud_Flag ;;
    Ok (Series.sum_int flags)
  else Ok 0%Z.

(** [(fraud_count / total_transactions * 100) if total_transactions > 0 else 0] *)
Definition fraud_rate (total_transactions : nat) (count : Z) : result Q :=
  if (0 <? total_transactions)%nat then
    ratio <- truediv (Float64.of_int count)
                     (Float64.of_int (Z.of_nat total_transactions)) ;;
    Ok (Float64.mul ratio 100)
  else Ok 0%Q.

(** [df[df['Fraud_Flag'] == 1] if 'Fraud_Flag' in df.columns else pd.DataFrame()] *)
Definition fraud_rows (d : DataFrame) : result DataFrame :=
  if has_column "Fraud_Flag" d then
    flags <- column d "Fraud_Flag" Fraud_Flag ;;
    Ok (select d (map (fun v => (v =? 1)%Z) flags))
  else Ok empty_frame.

(** The first half of the opening f-string: the three counts and the two
    rates. *)
Definition overview_block (total_transactions : nat) (count : Z) (rate : Q)
    : string :=
  nl ++ "DATASET OVERVIEW:" ++ nl
  ++ "- Total Transactions: " ++ format_commas total_transactions ++ nl
  ++ "- Fraudulent Transactions: " ++ str_int count
  ++ " (" ++ format_fixed 2 rate ++ "%)" ++ nl
  ++ "- Legitimate Transactions: "
  ++ str_int (Z.of_nat total_transactions - count)
  ++ " (" ++ format_fixed 2 (Float64.sub 100 rate) ++ "%)" ++ nl
  ++ nl.

(** The second half of the opening f-string: text without any placeholder. *)
Definition key_columns_block : string :=
"KEY COLUMNS AVAILABLE:
- Transaction_ID, Customer_ID, Transaction_Date, Transaction_Time
- Customer_Age, Customer_Loyalty_Tier, Location, Store_ID
- Product_SKU, Product_Category, Purchase_Amount
- Payment_Method, Device_Type, IP_Address, Fraud_Flag, Footfall_Count

".

Definition statistics_heading (n : nat) : string :=
  nl ++ nl ++ "COMPREHENSIVE FRAUD STATISTICS (Based on ALL " ++ str_nat n
  ++ " fraudulent transactions):" ++ nl.

(** One entry of a breakdown: the label, its count among the fraud rows and
    the percentage printed next to it. *)
Definition entry : Type := (string * nat * Q)%type.

Definition entry_label (e : entry) : string := fst (fst e).
Definition entry_count (e : entry) : nat := snd (fst e).
Definition entry_pct (e : entry) : Q := snd e.

(** The loop [for value, count in listed.items(): pct = pcts[value]]. *)
Definition breakdown_entries (listed : Series.indexed nat)
    (pcts : Series.indexed Q) : result (list entry) :=
  mapM (fun kc : string * nat =>
          pct <- Series.getitem pcts (fst kc) ;;
          Ok (fst kc, snd kc, pct))
       listed.

(** [f"  - {value}: {count} transactions ({pct}<tail>\n"] *)
Definition render_entry (tail : string) (e : entry) : string :=
  "  - " ++ entry_label e ++ ": " ++ str_nat (entry_count e)
  ++ " transactions (" ++ str_float2 (entry_pct e) ++ tail ++ nl.

(** The entries of the breakdown of one categorical column of the fraud
    rows. [top] is [Some 10] where the source iterates over [head(10)] and
    [None] where it iterates over all the counts; the percentages are always
    taken from the full series and relative to [len(fraud_df)]. *)
Definition category_entries (fraud_df : DataFrame) (name : string)
    (proj : TransactionRow -> Series.label) (top : option nat)
    : result (list entry) :=
  col <- column fraud_df name proj ;;
  let counts := Series.value_counts col in
  let pcts := Series.percentages counts (len fraud_df) in
  let listed :=
    match top with
    | Some n => Series.head n counts
    | None => counts
    end in
  breakdown_entries listed pcts.

(** One of the six blocks [if '<name>' in fraud_df.columns: ...]; the text
    it adds to the summary. *)
Definition category_section (fraud_df : DataFrame) (name : string)
    (proj : TransactionRow -> Series.label) (top : option nat)
    (title tail : string) : result string :=
  if has_column name fraud_df then
    es <- category_entries fraud_df name proj top ;;
    Ok (nl ++ title ++ nl ++ String.concat "" (map (render_entry tail) es))
  else Ok "".

Definition loyalty_section (fraud_df : DataFrame) : result string :=
  category_section fraud_df "Customer_Loyalty_Tier" Customer_Loyalty_Tier None
    "Customer Loyalty Tier Distribution in Fraud:" "% of all fraud)".

Definition payment_section (fraud_df : DataFrame) : result string :=
  category_section fraud_df "Payment_Method" Payment_Method None
    "Payment Methods in Fraud:" "%)".

Definition product_section (fraud_df : DataFrame) : result string :=
  category_section fraud_df "Product_Category" Product_Category None
    "Product Categories in Fraud:" "%)".

Definition store_section (fraud_df : DataFrame) : result string :=
  category_section fraud_df "Store_ID" Store_ID (Some 10%nat)
    "Stores in Fraud (Top 10):" "%)".

Definition location_section (fraud_df : DataFrame) : result string :=
  category_section fraud_df "Location" Location (Some 10%nat)
    "Locations in Fraud (Top 10):" "%)".

Definition device_section (fraud_df : DataFrame) : result string :=
  category_section fraud_df "Device_Type" Device_Type None
    "Device Types in Fraud:" "%)".

Definition purchase_section (fraud_df : DataFrame) : result string :=
  if has_column "Purchase_Amount" fraud_df then
    amounts <- column fraud_df "Purchase_Amount" Purchase_Amount ;;
    Ok (nl ++ "Purchase Amount Statistics for Fraud:" ++ nl
        ++ "  - Average: $" ++ format_fixed_nan 2 (Series.mean amounts) ++ nl
        ++ "  - Median: $" ++ format_fixed_nan 2 (Series.median amounts) ++ nl
        ++ "  - Min: $" ++ format_fixed_nan 2 (Series.min amounts) ++ nl
        ++ "  - Max: $" ++ format_fixed_nan 2 (Series.max amounts) ++ nl
        ++ "  - Total Fraud Amount: $"
        ++ format_fixed 2 (Series.sum amounts) ++ nl)
  else Ok "".

Definition age_section (fraud_df : DataFrame) : result string :=
  if has_column "Customer_Age" fraud_df then
    ages <- column fraud_df "Customer_Age" Customer_Age ;;
    Ok (nl ++ "Customer Age Statistics for Fraud:" ++ nl
        ++ "  - Average Age: " ++ format_fixed_nan 1 (Series.mean ages)
        ++ " years" ++ nl
        ++ "  - Min Age: " ++ format_fixed_nan 0 (Series.min ages)
        ++ " years" ++ nl
        ++ "  - Max Age: " ++ format_fixed_nan 0 (Series.max ages)
        ++ " years" ++ nl)
  else Ok "".

Definition time_note (fraud_df : DataFrame) : string :=
  if has_column "Transaction_Time" fraud_df then
    nl ++ "Note: Transaction times available for time-based pattern analysis"
    ++ nl
  else "".

(** The body of [if len(fraud_df) > 0:], everything it appends to the
    summary. *)
Definition fraud_statistics (fraud_df : DataFrame) : result string :=
  s1 <- loyalty_section fraud_df ;;
  s2 <- payment_section fraud_df ;;
  s3 <- product_section fraud_df ;;
  s4 <- store_section fraud_df ;;
  s5 <- location_section fraud_df ;;
  s6 <- device_section fraud_df ;;
  s7 <- purchase_section fraud_df ;;
  s8 <- age_section fraud_df ;;
  Ok (statistics_heading (len fraud_df)
      ++ s1 ++ s2 ++ s3 ++ s4 ++ s5 ++ s6 ++ s7 ++ s8 ++ time_note fraud_df).

Definition not_available : string := "Dataset not available.".

(** [get_dataset_summary()]; the module global [df] is its argument, [None]
    when loading the spreadsheet failed. *)
Definition get_dataset_summary (df : option DataFrame) : result string :=
  match df with
  | None => Ok not_available
  | Some d =>
      let total_transactions := len d in
      count <- fraud_count d ;;
      rate <- fraud_rate total_transactions count ;;
      fraud_df <- fraud_rows d ;;
      let summary :=
        overview_block total_transactions count rate ++ key_columns_block in
      if (0 <? len fraud_df)%nat then
        stats <- fraud_statistics fraud_df ;;
        Ok (summary ++ stats)
      else Ok summary
  end.

(* ================================================================== *)
(** * Conversation state and the request handlers *)
(* ================================================================== *)

(** The langchain message classes: a role tag and a text body. *)
Inductive Message : Type :=
| SystemMessage (content : string)
| HumanMessage (content : string)
| AIMessage (content : string).


(** The text of the system message the module starts with (lines 25-38). *)
Definition startup_instructions : string :=
"You are a professional fraud detection analyst assistant. 
Your role is to analyze cosmetics transaction data and provide clear, well-structured insights about fraud patterns.

IMPORTANT GUIDELINES:
- Provide responses in a clear, professional format
- Use bullet points, numbered lists, and proper formatting
- Include specific statistics and percentages when relevant
- Highlight key patterns and anomalies
- Keep responses concise but comprehensive
- Use **bold text** for emphasis and section titles (NOT markdown headers like ## or ###)
- Use bullet points (*) and numbered lists for better readability
- Avoid using markdown headers (##, ###) - instead use **bold text** for section titles
- Avoid messy formatting or special characters like ^^
- Structure your responses with clear sections using bold text for headings".

(** The text of the system message [clear_chat] installs (lines 196-209),
    a second literal in the source. *)
Definition reset_instructions : string :=
"You are a professional fraud detection analyst assistant. 
Your role is to analyze cosmetics transaction data and provide clear, well-structured insights about fraud patterns.

IMPORTANT GUIDELINES:
- Provide responses in a clear, professional format
- Use bullet points, numbered lists, and proper formatting
- Include specific statistics and percentages when relevant
- Highlight key patterns and anomalies
- Keep responses concise but comprehensive
- Use **bold text** for emphasis and section titles (NOT markdown headers like ## or ###)
- Use bullet points (*) and numbered lists for better readability
- Avoid using markdown headers (##, ###) - instead use **bold text** for section titles
- Avoid messy formatting or special characters like ^^
- Structure your responses with clear sections using bold text for headings".

(** The three literal parts of the f-string of [chat_route]. *)
Definition prompt_opening : string :=
"You have access to a cosmetics fraud detection dataset. Here's a summary:

".

Definition prompt_question_lead : string :=
"

Now answer this question clearly and professionally:
".

Definition prompt_directives : string :=
"

Remember to:
- Provide well-structured, formatted responses
- Use specific numbers and statistics from the data
- Use **bold text** for section headings (NOT ## or ###)
- Use bullet points (*) and numbered lists for better readability
- Keep it clear and professional
- Avoid using markdown headers (##, ###) - use bold text instead
- Avoid messy formatting".

(** The enriched body of the user turn. *)
Definition compose (dataset_summary user_message : string) : string :=
  prompt_opening ++ dataset_summary ++ prompt_question_lead
  ++ user_message ++ prompt_directives.

Definition error_prefix : string := "⚠️ Error: ".

Definition cleared_reply : string := "✅ Chat history cleared.".

(** The two module globals. [df] is [None] when the spreadsheet could not be
    read at start-up. *)
Record State : Type := mkState {
  df : option DataFrame;
  conversation_history : list Message
}.

(** The state of the module once it is loaded. *)
Definition startup (table : option DataFrame) : State :=
  mkState table [SystemMessage startup_instructions].

(** The answering service behind [chat.invoke]: for the transcript it is
    sent, either the text of an exception ([inl], what [str(e)] gives) or the
    content of the response ([inr]). *)
Definition Service : Type := list Message -> string + string.

(** A handler: it may change the state and either returns or raises. *)
Definition Handler (A : Type) : Type := State -> result A * State.

Definition ret {A : Type} (a : A) : Handler A := fun st => (Ok a, st).

Definition seq {A B : Type} (m : Handler A) (k : A -> Handler B) : Handler B :=
  fun st =>
    match m st with
    | (Ok a, st') => k a st'
    | (Raise e, st') => (Raise e, st')
    end.

Definition lift {A : Type} (r : result A) : Handler A := fun st => (r, st).

Definition read_df : Handler (option DataFrame) := fun st => (Ok (df st), st).

Definition read_history : Handler (list Message) :=
  fun st => (Ok (conversation_history st), st).

Definition write_history (h : list Message) : Handler unit :=
  fun st => (Ok tt, mkState (df st) h).

Notation "x <~ m ;;; k" := (seq m (fun x => k))
  (at level 61, m at next level, right associativity).
Notation "m ;;; k" := (seq m (fun _ => k))
  (at level 61, right associativity).

(** [conversation_history.append(m)] *)
Definition append (m : Message) : Handler unit :=
  h <~ read_history ;;;
  write_history (h ++ [m]).

(** [l[-1] = m] on a list: the last element is replaced; an empty list
    raises [IndexError]. *)
Fixpoint set_last (l : list Message) (m : Message) : result (list Message) :=
  match l with
  | [] => Raise IndexError
  | [_] => Ok [m]
  | x :: rest => rest' <- set_last rest m ;; Ok (x :: rest')
  end.

Definition replace_last (m : Message) : Handler unit :=
  h <~ read_history ;;;
  h' <~ lift (set_last h m) ;;;
  write_history h'.

(** The [try]/[except] around [chat.invoke(conversation_history)]. *)
Definition ask (chat : Service) : Handler string :=
  h <~ read_history ;;;
  match chat h with
  | inr content => ret content
  | inl e => ret (error_prefix ++ e)
  end.

(** [chat_route()], for the request body [{"message": user_message}]; the
    value returned is the ["reply"] field of the response. *)
Definition chat_route (chat : Service) (user_message : string)
    : Handler string :=
  append (HumanMessage user_message) ;;;
  table <~ read_df ;;;
  match table with
  | Some _ =>
      dataset_summary <~ lift (get_dataset_summary table) ;;;
      replace_last (HumanMessage (compose dataset_summary user_message))
  | None => ret tt
  end ;;;
  ai_response <~ ask chat ;;;
  append (AIMessage ai_response) ;;;
  ret ai_response.

(** [clear_chat()]: the global is rebound to a fresh one-element list. *)
Definition clear_chat : Handler string :=
  write_history [SystemMessage reset_instructions] ;;;
  ret cleared_reply.

(** The reads of the transcript the specification calls [snapshot]. *)
Definition snapshot (st : State) : list Message := conversation_history st.

(** A request to the service, and a run of the service over a list of
    requests; a handler that raises gives an error response and the process
    goes on with the state the handler left. *)
Inductive Request : Type :=
| PostChat (chat : Service) (user_message : string)
| PostClear.

Definition handle (st : State) (r : Request) : State :=
  match r with
  | PostChat chat user_message => snd (chat_route chat user_message st)
  | PostClear => snd (clear_chat st)
  end.

Definition serve (requests : list Request) (st : State) : State :=
  fold_left handle requests st.

(* ================================================================== *)
(** * Vocabulary of the statements *)
(* ================================================================== *)

Definition label_eq_dec (x y : Series.label) : {x = y} + {x <> y}.
Proof. decide equality. apply string_dec. Defined.

(** How many cells of a column hold the label [k]. *)
Definition occurrences (col : list Series.label) (k : string) : nat :=
  count_occ label_eq_dec col (Some k).

(** The position of the first cell of a column that holds [x] (the length
    of the column when no cell does). *)
Fixpoint first_pos (x : Series.label) (col : list Series.label) : nat :=
  match col with
  | [] => 0%nat
  | y :: rest =>
      if label_eq_dec x y then 0%nat else S (first_pos x rest)
  end.

(** The labels of the cells that are not blank, in order. *)
Fixpoint labels (col : list Series.label) : list string :=
  match col with
  | [] => []
  | Some k :: rest => k :: labels rest
  | None :: rest => labels rest
  end.

(** The distinct labels of a column. *)
Definition distinct_labels (col : list Series.label) : list string :=
  nodup string_dec (labels col).

(** The order of first occurrence, on labels. *)
Definition earlier (col : list Series.label) (k1 k2 : string) : Prop :=
  (first_pos (Some k1) col < first_pos (Some k2) col)%nat.

(** The order of the groups of a breakdown of the column [col]: a larger
    count first, and between equal counts the label that occurs first. *)
Definition ranks_before (col : list Series.label) (a b : string * nat)
    : Prop :=
  (snd b < snd a)%nat
  \/ (snd a = snd b /\ earlier col (fst a) (fst b)).

(** The exact share of [c] rows out of [n], in percent. *)
Definition share (n c : nat) : Q :=
  inject_Z (Z.of_nat c) / inject_Z (Z.of_nat n) * 100.

(** The float [c / n * 100] of the source, [c] and [n] integers. *)
Definition float_share (n c : Z) : Q :=
  Float64.mul (Float64.div (Float64.of_int c) (Float64.of_int n)) 100.

(** The percentage of a group of [c] rows out of [n] fraud rows, as the
    source computes it: the float share, rounded to two decimals by numpy. *)
Definition pct_of (n c : nat) : Q :=
  Series.round2 (float_share (Z.of_nat n) (Z.of_nat c)).

(** The decimal number the digest shows for a percentage. *)
Definition shown (pct : Q) : Q :=
  (inject_Z (round_half_even (pct * 100)) / 100)%Q.

(** The invariant of the data model on the label column: when the column
    exists, every flag is 0 or 1. *)
Definition binary_flags (d : DataFrame) : Prop :=
  has_column "Fraud_Flag" d = true ->
  Forall (fun r => Fraud_Flag r = 0%Z \/ Fraud_Flag r = 1%Z) (rows d).

(** The rows the digest calls fraudulent. *)
Definition is_fraud (r : TransactionRow) : bool := (Fraud_Flag r =? 1)%Z.

(** The column names of the header block, line by line. *)
Definition key_column_lines : list (list string) :=
  [ ["Transaction_ID"; "Customer_ID"; "Transaction_Date"; "Transaction_Time"];
    ["Customer_Age"; "Customer_Loyalty_Tier"; "Location"; "Store_ID"];
    ["Product_SKU"; "Product_Category"; "Purchase_Amount"];
    ["Payment_Method"; "Device_Type"; "IP_Address"; "Fraud_Flag";
     "Footfall_Count"] ].

(** The entry printed for a group [(label, count)] among [n] fraud rows. *)
Definition entry_of (n : nat) (kc : string * nat) : entry :=
  (fst kc, snd kc, pct_of n (snd kc)).

(** The groups a breakdown lists: all of them, or the first [n]. *)
Definition listed_groups (top : option nat) (counts : Series.indexed nat)
    : Series.indexed nat :=
  match top with
  | Some n => Series.head n counts
  | None => counts
  end.

(** The sum of the percentages a breakdown shows. *)
Definition shown_total (es : list entry) : Q :=
  Series.Qsum (map (fun e => shown (entry_pct e)) es).

(** The room the amended tolerance leaves for each listed group: half a
    hundredth for the rounding to two decimals, and 10^-13 for the rounding
    of the double precision operations before it. *)
Definition slack_per_group : Q := (1 # 200) + (1 # 10000000000000).

(** The fraud rows as a frame, as [get_dataset_summary] selects them. *)
Definition fraud_frame (d : DataFrame) : DataFrame :=
  if has_column "Fraud_Flag" d
  then mkFrame (columns d) (filter is_fraud (rows d))
  else empty_frame.

(** [part] occurs in [whole], verbatim. *)
Definition occurs_in (part whole : string) : Prop :=
  exists before after, whole = before ++ part ++ after.

(** The entries [es] are the ten first groups of the column [col] in the
    order [ranks_before]: each is a group of the column with its number of
    occurrences, they are listed in that order, and every group that is
    left out ranks after each of them. *)
Definition top10_listing (col : list Series.label) (es : list entry) : Prop :=
  length es = 10%nat
  /\ (forall e, In e es ->
        In (Some (entry_label e)) col
        /\ entry_count e = occurrences col (entry_label e)
        /\ entry_pct e = pct_of (length col) (entry_count e))
  /\ StronglySorted (ranks_before col) (map fst es)
  /\ (forall e k, In e es -> In (Some k) col ->
        ~ In k (map entry_label es) ->
        ranks_before col (fst e) (k, occurrences col k)).

(** The six categorical blocks of the digest: the name of the column, the
    field of the rows, the cut, the title, the end of each line and the
    function of the embedding that builds the block. *)
Definition category_blocks
    : list (string * (TransactionRow -> Series.label) * option nat
            * string * string * (DataFrame -> result string)) :=
  [ ("Customer_Loyalty_Tier", Customer_Loyalty_Tier, None,
     "Customer Loyalty Tier Distribution in Fraud:", "% of all fraud)",
     loyalty_section);
    ("Payment_Method", Payment_Method, None,
     "Payment Methods in Fraud:", "%)", payment_section);
    ("Product_Category", Product_Category, None,
     "Product Categories in Fraud:", "%)", product_section);
    ("Store_ID", Store_ID, Some 10%nat,
     "Stores in Fraud (Top 10):", "%)", store_section);
    ("Location", Location, Some 10%nat,
     "Locations in Fraud (Top 10):", "%)", location_section);
    ("Device_Type", Device_Type, None,
     "Device Types in Fraud:", "%)", device_section) ].

(** The two blocks the source cuts to [head(10)]. *)
Definition top10_blocks
    : list (string * (TransactionRow -> Series.label) * string
            * (DataFrame -> result string)) :=
  [ ("Store_ID", Store_ID, "Stores in Fraud (Top 10):", store_section);
    ("Location", Location, "Locations in Fraud (Top 10):",
     location_section) ].

(** What the answering service call leaves in [ai_response]. *)
Definition answer (chat : Service) (transcript : list Message) : string :=
  match chat transcript with
  | inr content => content
  | inl e => error_prefix ++ e
  end.

(* ================================================================== *)
(** * Sample tables *)
(* ================================================================== *)

(** A sheet with all sixteen columns. *)
Definition all_columns : list string := concat key_column_lines.

Definition sample_row (flag : Z) (payment store : string) : TransactionRow :=
  mkRow flag (Some "Gold") (Some payment) (Some "Skincare") (Some store)
    (Some "Paris") (Some "Mobile") (Some (120 # 1)) (Some (34 # 1)).

(** Seven fraud rows, each with a payment method of its own. *)
Definition seven_methods : DataFrame :=
  mkFrame all_columns
    (map (fun m => sample_row 1 m "S01")
       ["Card"; "Cash"; "Wallet"; "Voucher"; "Crypto"; "Transfer"; "Cheque"]).

(** Fraud rows over fifteen stores, with several ties, among other rows. *)
Definition fifteen_stores : DataFrame :=
  mkFrame all_columns
    (map (sample_row 1 "Card")
       ["S01"; "S02"; "S03"; "S03"; "S04"; "S05"; "S05"; "S05"; "S06";
        "S07"; "S08"; "S09"; "S10"; "S11"; "S12"; "S13"; "S14"; "S15";
        "S15"]
     ++ map (sample_row 0 "Cash") ["S01"; "S16"; "S16"; "S16"])%list.

(** Two fraud rows out of five. *)
Definition mixed_flags : DataFrame :=
  mkFrame all_columns
    [sample_row 1 "Card" "S01"; sample_row 0 "Cash" "S02";
     sample_row 0 "Card" "S01"; sample_row 1 "Cash" "S03";
     sample_row 0 "Card" "S02"].

(** The scenario of the specification: a hundred rows, ten of them fraud
    rows, five paid by card and five in cash. *)
Definition spec_scenario : DataFrame :=
  mkFrame all_columns
    (repeat (sample_row 1 "Card" "S01") 5
     ++ repeat (sample_row 0 "Card" "S02") 40
     ++ repeat (sample_row 1 "Cash" "S01") 5
     ++ repeat (sample_row 0 "Cash" "S02") 50)%list.

(** No fraud row. *)
Definition no_fraud : DataFrame :=
  mkFrame all_columns
    [sample_row 0 "Card" "S01"; sample_row 0 "Cash" "S02"].

(** Two fraud rows whose purchase amount is blank. *)
Definition blank_amounts : DataFrame :=
  mkFrame all_columns
    [mkRow 1 (Some "Gold") (Some "Card") (Some "Skincare") (Some "S01")
       (Some "Paris") (Some "Mobile") None (Some (34 # 1));
     mkRow 1 (Some "Silver") (Some "Cash") (Some "Makeup") (Some "S02")
       (Some "Lyon") (Some "Desktop") None None].

(** One row whose flag is 2. *)
Definition flag_two : DataFrame :=
  mkFrame all_columns [sample_row 2 "Card" "S01"].

(** Two fraud rows, the payment method of the second one blank. *)
Definition blank_method : DataFrame :=
  mkFrame all_columns
    [sample_row 1 "Card" "S01";
     mkRow 1 (Some "Gold") None (Some "Skincare") (Some "S02")
       (Some "Paris") (Some "Mobile") (Some (80 # 1)) (Some (41 # 1))].

(** Twenty-three fraud rows out of a hundred and sixty, five of them paid
    in cash. *)
Definition twenty_three_of_160 : DataFrame :=
  mkFrame all_columns
    (repeat (sample_row 1 "Card" "S01") 18
     ++ repeat (sample_row 0 "Card" "S02") 137
     ++ repeat (sample_row 1 "Cash" "S01") 5)%list.

(** The table [mixed_flags] with other legitimate rows. *)
Definition mixed_flags_other_legitimate : DataFrame :=
  mkFrame all_columns
    [sample_row 1 "Card" "S01"; sample_row 0 "Voucher" "S09";
     sample_row 0 "Cheque" "S08"; sample_row 1 "Cash" "S03";
     sample_row 0 "Wallet" "S07"].

(* ================================================================== *)
(** * Vocabulary of the transcript and of the blocks *)
(* ================================================================== *)

(** User and assistant turns in alternation, a user turn first. *)
Fixpoint alternates (l : list Message) : bool :=
  match l with
  | [] => true
  | HumanMessage _ :: AIMessage _ :: rest => alternates rest
  | _ => false
  end.

(** The shape of the transcript between two requests: the system turn with
    the standing instructions, then user and assistant turns in pairs. *)
Definition well_formed (h : list Message) : bool :=
  match h with
  | SystemMessage s :: rest =>
      String.eqb s startup_instructions && alternates rest
  | _ => false
  end.

(** The questions of the chat requests that follow the last reset. *)
Definition questions_since_clear (requests : list Request) : list string :=
  fold_left
    (fun acc r =>
       match r with
       | PostChat _ user_message => (acc ++ [user_message])%list
       | PostClear => []
       end)
    requests [].

(** The bodies of the user turns of a transcript, in order. *)
Definition human_bodies (h : list Message) : list string :=
  flat_map (fun m => match m with HumanMessage c => [c] | _ => [] end) h.

(** The body [chat_route] leaves in the user turn. *)
Definition turn_body (table : option DataFrame) (user_message : string)
    : string :=
  match table with
  | Some _ =>
      match get_dataset_summary table with
      | Ok dataset_summary => compose dataset_summary user_message
      | Raise _ => user_message
      end
  | None => user_message
  end.

(** The purchase block when no fraud row has an amount. *)
Definition purchase_block_without_amounts : string :=
"
Purchase Amount Statistics for Fraud:
  - Average: $nan
  - Median: $nan
  - Min: $nan
  - Max: $nan
  - Total Fraud Amount: $0.00
".

(* ================================================================== *)
(** * Facts about double precision rounding *)
(* ================================================================== *)

Section FloatFacts.

Local Open Scope Q_scope.

Lemma pow2_pos (e : Z) : 0 < pow2 e.
Proof. apply Qpower_0_lt. reflexivity. Qed.

Lemma pow2_plus (a b : Z) : pow2 (a + b) == pow2 a * pow2 b.
Proof. apply Qpower_plus. discriminate. Qed.

Lemma pow2_le (a b : Z) : (a <= b)%Z -> pow2 a <= pow2 b.
Proof. intros H. apply Qpower_le_compat_l; [exact H|discriminate]. Qed.

Lemma pow2_lt (a b : Z) : (a < b)%Z -> pow2 a < pow2 b.
Proof. intros H. apply Qpower_lt_compat_l; [exact H|reflexivity]. Qed.

Lemma pow2_lt_inv (a b : Z) : pow2 a < pow2 b -> (a < b)%Z.
Proof. intros H. apply (Qpower_lt_compat_l_inv 2); [exact H|reflexivity]. Qed.

Lemma pow2_nonneg_Z (e : Z) : (0 <= e)%Z -> pow2 e == inject_Z (2 ^ e).
Proof. intros H. unfold pow2. now rewrite Zpower_Qpower. Qed.

Lemma pow2_succ (e : Z) : pow2 (e + 1) == 2 * pow2 e.
Proof. rewrite pow2_plus. change (pow2 1) with 2. ring. Qed.

Lemma ilog2_spec (q : Q) :
  0 < q -> pow2 (ilog2 q) <= q /\ q < pow2 (ilog2 q + 1).
Proof.
  intros Hq. unfold ilog2.
  destruct q as [a b]. cbn [Qnum Qden].
  assert (Ha : (0 < a)%Z).
  { unfold Qlt in Hq. cbn in Hq. lia. }
  set (la := Z.log2 a). set (lb := Z.log2 (Z.pos b)).
  assert (Hla : (2 ^ la <= a < 2 ^ (la + 1))%Z).
  { unfold la. replace (la + 1)%Z with (Z.succ (Z.log2 a)) by (unfold la; lia).
    apply Z.log2_spec. exact Ha. }
  assert (Hlb : (2 ^ lb <= Z.pos b < 2 ^ (lb + 1))%Z).
  { unfold lb. replace (lb + 1)%Z with (Z.succ (Z.log2 (Z.pos b))) by (unfold lb; lia).
    apply Z.log2_spec. lia. }
  assert (Hla0 : (0 <= la)%Z) by apply Z.log2_nonneg.
  assert (Hlb0 : (0 <= lb)%Z) by apply Z.log2_nonneg.
  assert (Hq' : a # b == inject_Z a / inject_Z (Z.pos b)) by apply Qmake_Qdiv.
  assert (Hb : 0 < inject_Z (Z.pos b)) by reflexivity.
  (* bounds of the quotient by powers of two *)
  assert (Hup : a # b < pow2 (la - lb + 1)).
  { rewrite Hq'. apply Qlt_shift_div_r; [exact Hb|].
    apply Qlt_le_trans with (pow2 (la + 1)).
    - rewrite pow2_nonneg_Z by lia. rewrite <- Zlt_Qlt. lia.
    - replace (la + 1)%Z with ((la - lb + 1) + lb)%Z by lia.
      rewrite pow2_plus. apply Qmult_le_l; [apply pow2_pos|].
      rewrite pow2_nonneg_Z by lia. rewrite <- Zle_Qle. lia. }
  assert (Hlow : pow2 (la - lb - 1) <= a # b).
  { rewrite Hq'. apply Qle_shift_div_l; [exact Hb|].
    apply Qle_trans with (pow2 la).
    - replace la with ((la - lb - 1) + (lb + 1))%Z at 2 by lia.
      rewrite pow2_plus. apply Qmult_le_l; [apply pow2_pos|].
      rewrite pow2_nonneg_Z by lia. rewrite <- Zle_Qle. lia.
    - rewrite pow2_nonneg_Z by lia. rewrite <- Zle_Qle. lia. }
  destruct (Qle_bool (pow2 (la - lb)) (a # b)) eqn:Hc.
  - apply Qle_bool_iff in Hc. split; assumption.
  - assert (Hlt : a # b < pow2 (la - lb)).
    { apply Qnot_le_lt. intros H. apply Qle_bool_iff in H. congruence. }
    split; [exact Hlow|].
    replace (la - lb - 1 + 1)%Z with (la - lb)%Z by lia. exact Hlt.
Qed.

Lemma ilog2_unique (q : Q) (e : Z) :
  pow2 e <= q -> q < pow2 (e + 1) -> ilog2 q = e.
Proof.
  intros Hlo Hhi.
  assert (Hq : 0 < q) by (apply Qlt_le_trans with (pow2 e); [apply pow2_pos|exact Hlo]).
  destruct (ilog2_spec q Hq) as [Hlo' Hhi'].
  assert (H1 : (e < ilog2 q + 1)%Z).
  { apply pow2_lt_inv. apply Qle_lt_trans with q; assumption. }
  assert (H2 : (ilog2 q < e + 1)%Z).
  { apply pow2_lt_inv. apply Qle_lt_trans with q; assumption. }
  lia.
Qed.

Lemma ilog2_comp (x y : Q) : 0 < x -> x == y -> ilog2 x = ilog2 y.
Proof.
  intros Hx Hxy. symmetry. destruct (ilog2_spec x Hx) as [Hlo Hhi].
  apply ilog2_unique; now rewrite <- Hxy.
Qed.

Lemma ilog2_mono (x y : Q) : 0 < x -> x <= y -> (ilog2 x <= ilog2 y)%Z.
Proof.
  intros Hx Hxy.
  assert (Hy : 0 < y) by (apply Qlt_le_trans with x; assumption).
  destruct (ilog2_spec x Hx) as [Hlo _].
  destruct (ilog2_spec y Hy) as [_ Hhi].
  assert (H : (ilog2 x < ilog2 y + 1)%Z).
  { apply pow2_lt_inv. apply Qle_lt_trans with x; [exact Hlo|].
    apply Qle_lt_trans with y; assumption. }
  lia.
Qed.

Lemma round_half_even_close (q : Q) :
  q - (1 # 2) <= inject_Z (round_half_even q) <= q + (1 # 2).
Proof.
  unfold round_half_even.
  pose proof (Qfloor_le q) as Hlo.
  pose proof (Qlt_floor q) as Hhi.
  rewrite inject_Z_plus in Hhi. change (inject_Z 1) with 1 in Hhi.
  destruct (Qcompare_spec (q - inject_Z (Qfloor q)) (1 # 2)) as [He|Hl|Hg].
  - destruct (Z.even (Qfloor q)).
    + lra.
    + rewrite inject_Z_plus. change (inject_Z 1) with 1. lra.
  - lra.
  - rewrite inject_Z_plus. change (inject_Z 1) with 1. lra.
Qed.

Lemma round_half_even_comp (q q' : Q) :
  q == q' -> round_half_even q = round_half_even q'.
Proof.
  intros H. unfold round_half_even.
  rewrite (Qfloor_comp q q' H).
  assert (Hc : (q - inject_Z (Qfloor q') ?= 1 # 2)
               = (q' - inject_Z (Qfloor q') ?= 1 # 2)).
  { apply Qcompare_comp; [now rewrite H|reflexivity]. }
  now rewrite Hc.
Qed.

Lemma round_half_even_floor (q : Q) :
  (Qfloor q <= round_half_even q <= Qfloor q + 1)%Z.
Proof.
  unfold round_half_even.
  destruct (q - inject_Z (Qfloor q) ?= 1 # 2); [|lia|lia].
  destruct (Z.even (Qfloor q)); lia.
Qed.

Lemma round_half_even_int (z : Z) : round_half_even (inject_Z z) = z.
Proof.
  unfold round_half_even. rewrite Qfloor_Z.
  destruct (Qcompare_spec (inject_Z z - inject_Z z) (1 # 2)) as [H|H|H].
  - exfalso. lra.
  - reflexivity.
  - exfalso. lra.
Qed.

Lemma round_half_even_mono (q q' : Q) :
  q <= q' -> (round_half_even q <= round_half_even q')%Z.
Proof.
  intros Hq.
  pose proof (Qfloor_resp_le q q' Hq) as Hf.
  destruct (Z.eq_dec (Qfloor q) (Qfloor q')) as [Heq|Hne].
  - unfold round_half_even. rewrite <- Heq.
    destruct (Qcompare_spec (q - inject_Z (Qfloor q)) (1 # 2)) as [H|H|H];
      destruct (Qcompare_spec (q' - inject_Z (Qfloor q)) (1 # 2)) as [H'|H'|H'];
      try (destruct (Z.even (Qfloor q))); try lia; exfalso; lra.
  - pose proof (round_half_even_floor q). pose proof (round_half_even_floor q').
    lia.
Qed.

Lemma round_half_even_le_int (q : Q) (z : Z) :
  q <= inject_Z z -> (round_half_even q <= z)%Z.
Proof.
  intros H. rewrite <- (round_half_even_int z). now apply round_half_even_mono.
Qed.

Lemma round_half_even_ge_int (q : Q) (z : Z) :
  inject_Z z <= q -> (z <= round_half_even q)%Z.
Proof.
  intros H. rewrite <- (round_half_even_int z) at 1.
  now apply round_half_even_mono.
Qed.

Lemma round_half_even_nonneg (q : Q) :
  0 <= q -> (0 <= round_half_even q)%Z.
Proof. intros H. now apply round_half_even_ge_int. Qed.

(** ** Rounding to binary64 *)

Lemma rnd_zero (q : Q) : q == 0 -> rnd q = 0.
Proof.
  intros H. unfold rnd. apply Qeq_bool_iff in H. now rewrite H.
Qed.

Lemma rnd_nonzero (q : Q) :
  ~ q == 0 ->
  rnd q == inject_Z (round_half_even (q / pow2 (ulp_exp q))) * pow2 (ulp_exp q).
Proof.
  intros H. unfold rnd.
  destruct (Qeq_bool q 0) eqn:E.
  - apply Qeq_bool_iff in E. contradiction.
  - apply Qred_correct.
Qed.

Lemma Qabs_pos_lt (x : Q) : ~ x == 0 -> 0 < Qabs x.
Proof.
  intros Hx. destruct (Qlt_le_dec 0 x) as [Hpos|Hneg].
  - rewrite Qabs_pos; [exact Hpos|]. now apply Qlt_le_weak.
  - rewrite Qabs_neg by exact Hneg.
    destruct (Qle_lt_or_eq _ _ Hneg) as [Hlt|Heq]; [lra|contradiction].
Qed.

Lemma ulp_exp_comp (x y : Q) : x == y -> ~ x == 0 -> ulp_exp x = ulp_exp y.
Proof.
  intros Hxy Hx. unfold ulp_exp. f_equal. f_equal.
  apply ilog2_comp; [now apply Qabs_pos_lt|now rewrite Hxy].
Qed.

Lemma ulp_exp_pos (x : Q) :
  0 < x -> ulp_exp x = Z.max (ilog2 x - 52) (-1074).
Proof.
  intros Hx. unfold ulp_exp. f_equal. f_equal.
  apply ilog2_comp.
  - apply Qabs_pos_lt. lra.
  - apply Qabs_pos. lra.
Qed.

(** Rounding does not depend on how the rational is written. *)
Lemma rnd_comp (x y : Q) : x == y -> rnd x = rnd y.
Proof.
  intros Hxy. unfold rnd.
  destruct (Qeq_bool x 0) eqn:Ex; destruct (Qeq_bool y 0) eqn:Ey.
  - reflexivity.
  - apply Qeq_bool_iff in Ex. apply Qeq_bool_neq in Ey.
    exfalso. apply Ey. apply Qeq_trans with x; [now apply Qeq_sym|exact Ex].
  - apply Qeq_bool_iff in Ey. apply Qeq_bool_neq in Ex.
    exfalso. apply Ex. apply Qeq_trans with y; assumption.
  - apply Qeq_bool_neq in Ex.
    apply Qred_complete.
    rewrite <- (ulp_exp_comp x y Hxy Ex).
    rewrite (round_half_even_comp (x / pow2 (ulp_exp x)) (y / pow2 (ulp_exp x))).
    + reflexivity.
    + unfold Qdiv. apply Qmult_comp; [exact Hxy|reflexivity].
Qed.

Lemma pow2_53 : pow2 53 == inject_Z (2 ^ 53).
Proof. apply pow2_nonneg_Z. lia. Qed.

Lemma pow2_52 : pow2 52 == inject_Z (2 ^ 52).
Proof. apply pow2_nonneg_Z. lia. Qed.

Lemma div_pow2_lt (x : Q) (e k : Z) :
  x < pow2 (e + k) -> x / pow2 e < pow2 k.
Proof.
  intros H. apply Qlt_shift_div_r; [apply pow2_pos|].
  rewrite <- pow2_plus. now replace (k + e)%Z with (e + k)%Z by lia.
Qed.

Lemma div_pow2_ge (x : Q) (e k : Z) :
  pow2 (e + k) <= x -> pow2 k <= x / pow2 e.
Proof.
  intros H. apply Qle_shift_div_l; [apply pow2_pos|].
  rewrite <- pow2_plus. now replace (k + e)%Z with (e + k)%Z by lia.
Qed.

(** A positive number rounds to at most the top of its binade. *)
Lemma rnd_pos_upper (x : Q) :
  0 < x -> rnd x <= pow2 (ulp_exp x + 53).
Proof.
  intros Hx. rewrite rnd_nonzero by lra.
  destruct (ilog2_spec x Hx) as [_ Hhi].
  assert (He : (ilog2 x + 1 <= ulp_exp x + 53)%Z).
  { rewrite (ulp_exp_pos x Hx). lia. }
  assert (Hm : (round_half_even (x / pow2 (ulp_exp x)) <= 2 ^ 53)%Z).
  { apply round_half_even_le_int. rewrite <- pow2_53.
    apply Qlt_le_weak, div_pow2_lt.
    apply Qlt_le_trans with (pow2 (ilog2 x + 1)); [exact Hhi|].
    now apply pow2_le. }
  rewrite Zle_Qle in Hm. rewrite <- pow2_53 in Hm.
  replace (ulp_exp x + 53)%Z with (53 + ulp_exp x)%Z by lia.
  rewrite pow2_plus. apply Qmult_le_compat_r; [exact Hm|].
  apply Qlt_le_weak, pow2_pos.
Qed.

(** A positive normal number rounds to at least the bottom of its binade. *)
Lemma rnd_pos_lower (x : Q) :
  0 < x -> (-1074 < ulp_exp x)%Z -> pow2 (ulp_exp x + 52) <= rnd x.
Proof.
  intros Hx Hnorm. rewrite rnd_nonzero by lra.
  destruct (ilog2_spec x Hx) as [Hlo _].
  assert (He : ulp_exp x = (ilog2 x - 52)%Z).
  { rewrite (ulp_exp_pos x Hx) in *. lia. }
  assert (Hm : (2 ^ 52 <= round_half_even (x / pow2 (ulp_exp x)))%Z).
  { apply round_half_even_ge_int. rewrite <- pow2_52.
    apply div_pow2_ge. now replace (ulp_exp x + 52)%Z with (ilog2 x) by lia. }
  rewrite Zle_Qle in Hm. rewrite <- pow2_52 in Hm.
  replace (ulp_exp x + 52)%Z with (52 + ulp_exp x)%Z by lia.
  rewrite pow2_plus. apply Qmult_le_compat_r; [exact Hm|].
  apply Qlt_le_weak, pow2_pos.
Qed.

Lemma rnd_mono_pos (x y : Q) : 0 < x -> x <= y -> rnd x <= rnd y.
Proof.
  intros Hx Hxy.
  assert (Hy : 0 < y) by lra.
  assert (He : (ulp_exp x <= ulp_exp y)%Z).
  { rewrite (ulp_exp_pos x Hx), (ulp_exp_pos y Hy).
    pose proof (ilog2_mono x y Hx Hxy). lia. }
  destruct (Z.eq_dec (ulp_exp x) (ulp_exp y)) as [Heq|Hne].
  - rewrite (rnd_nonzero x), (rnd_nonzero y) by lra. rewrite <- Heq.
    apply Qmult_le_compat_r; [|apply Qlt_le_weak, pow2_pos].
    rewrite <- Zle_Qle. apply round_half_even_mono.
    apply Qmult_le_compat_r; [exact Hxy|].
    apply Qlt_le_weak, Qinv_lt_0_compat, pow2_pos.
  - apply Qle_trans with (pow2 (ulp_exp x + 53)); [now apply rnd_pos_upper|].
    apply Qle_trans with (pow2 (ulp_exp y + 52)).
    + apply pow2_le. lia.
    + apply rnd_pos_lower; [exact Hy|].
      assert (Hmin : (-1074 <= ulp_exp x)%Z) by (unfold ulp_exp; lia).
      lia.
Qed.

Lemma rnd_nonneg (x : Q) : 0 <= x -> 0 <= rnd x.
Proof.
  intros Hx. destruct (Qeq_dec x 0) as [Hz|Hnz].
  - rewrite (rnd_zero x Hz). apply Qle_refl.
  - rewrite rnd_nonzero by exact Hnz.
    apply Qmult_le_0_compat; [|apply Qlt_le_weak, pow2_pos].
    change 0 with (inject_Z 0). rewrite <- Zle_Qle.
    apply round_half_even_nonneg.
    apply Qle_shift_div_l; [apply pow2_pos|]. lra.
Qed.

(** Rounding is monotone on non-negative numbers. *)
Lemma rnd_mono (x y : Q) : 0 <= x -> x <= y -> rnd x <= rnd y.
Proof.
  intros Hx Hxy. destruct (Qeq_dec x 0) as [Hz|Hnz].
  - rewrite (rnd_zero x Hz). apply rnd_nonneg. lra.
  - apply rnd_mono_pos; [|exact Hxy].
    destruct (Qle_lt_or_eq _ _ Hx) as [Hlt|Heq]; [exact Hlt|].
    exfalso. apply Hnz. now symmetry.
Qed.

(** The rounding error is at most half a unit in the last place. *)
Lemma rnd_error (x : Q) :
  x - pow2 (ulp_exp x) * (1 # 2) <= rnd x <= x + pow2 (ulp_exp x) * (1 # 2).
Proof.
  destruct (Qeq_dec x 0) as [Hz|Hnz].
  - rewrite (rnd_zero x Hz). pose proof (pow2_pos (ulp_exp x)). lra.
  - rewrite (rnd_nonzero x Hnz).
    set (p := pow2 (ulp_exp x)).
    assert (Hp : 0 < p) by apply pow2_pos.
    pose proof (round_half_even_close (x / p)) as Hc.
    set (m := inject_Z (round_half_even (x / p))) in *.
    assert (Hx : x == x / p * p) by (field; lra).
    set (q := x / p) in *. nra.
Qed.

Lemma ulp_exp_below (x : Q) (k : Z) :
  0 < x -> x < pow2 k -> (-1021 <= k)%Z -> (ulp_exp x <= k - 53)%Z.
Proof.
  intros Hx Hk Hmin. rewrite (ulp_exp_pos x Hx).
  destruct (ilog2_spec x Hx) as [Hlo _].
  assert (H : (ilog2 x < k)%Z).
  { apply pow2_lt_inv. apply Qle_lt_trans with x; assumption. }
  lia.
Qed.

(** The absolute error below a power of two. *)
Lemma rnd_error_below (x : Q) (k : Z) :
  0 <= x -> x < pow2 k -> (-1021 <= k)%Z ->
  x - pow2 (k - 54) <= rnd x <= x + pow2 (k - 54).
Proof.
  intros Hx Hk Hmin.
  destruct (Qeq_dec x 0) as [Hz|Hnz].
  - rewrite (rnd_zero x Hz). pose proof (pow2_pos (k - 54)). lra.
  - assert (Hpos : 0 < x).
    { destruct (Qle_lt_or_eq _ _ Hx) as [Hlt|Heq]; [exact Hlt|].
      exfalso. apply Hnz. now symmetry. }
    pose proof (ulp_exp_below x k Hpos Hk Hmin) as He.
    pose proof (rnd_error x) as Herr.
    assert (Hp : pow2 (ulp_exp x) * (1 # 2) <= pow2 (k - 54)).
    { apply Qle_trans with (pow2 (k - 53) * (1 # 2)).
      - apply Qmult_le_compat_r; [now apply pow2_le|discriminate].
      - replace (k - 53)%Z with ((k - 54) + 1)%Z by lia.
        rewrite pow2_succ. lra. }
    lra.
Qed.

(** The relative error of a number that is at least one. *)
Lemma rnd_error_rel (x : Q) :
  1 <= x -> x - x * pow2 (-53) <= rnd x <= x + x * pow2 (-53).
Proof.
  intros Hx.
  assert (Hpos : 0 < x) by lra.
  pose proof (rnd_error x) as Herr.
  destruct (ilog2_spec x Hpos) as [Hlo _].
  assert (H0 : (0 <= ilog2 x)%Z).
  { assert (H : (0 < ilog2 x + 1)%Z).
    { apply pow2_lt_inv. change (pow2 0) with 1.
      destruct (ilog2_spec x Hpos) as [_ Hhi]. lra. }
    lia. }
  assert (He : ulp_exp x = (ilog2 x - 52)%Z).
  { rewrite (ulp_exp_pos x Hpos). lia. }
  assert (Hp : pow2 (ulp_exp x) * (1 # 2) <= x * pow2 (-53)).
  { rewrite He.
    apply Qle_trans with (pow2 (ilog2 x) * pow2 (-53)).
    - replace (ilog2 x - 52)%Z with (ilog2 x + (-53) + 1)%Z by lia.
      rewrite pow2_succ, pow2_plus. lra.
    - apply Qmult_le_compat_r; [exact Hlo|].
      apply Qlt_le_weak, pow2_pos. }
  lra.
Qed.

End FloatFacts.

(* ================================================================== *)
(** * Facts about the pandas operations *)
(* ================================================================== *)

Section Tally.

Import Series.
Local Open Scope list_scope.

Lemma keys_app {A : Type} (s t : indexed A) : keys (s ++ t) = keys s ++ keys t.
Proof. apply map_app. Qed.

(** A label that has no tally yet gets one at the end. *)
Lemma bump_fresh (k : string) (acc : indexed nat) :
  ~ In k (keys acc) -> bump k acc = acc ++ [(k, 1%nat)].
Proof.
  induction acc as [|[k' c] rest IH]; simpl; intros Hnin.
  - reflexivity.
  - destruct (String.eqb_spec k k') as [->|Hne].
    + exfalso. apply Hnin. now left.
    + f_equal. apply IH. intros Hin. apply Hnin. now right.
Qed.

(** A label that has a tally has it incremented where it stands. *)
Lemma bump_seen (k : string) (acc : indexed nat) :
  In k (keys acc) ->
  exists front c back,
    acc = front ++ (k, c) :: back
    /\ ~ In k (keys front)
    /\ bump k acc = front ++ (k, S c) :: back.
Proof.
  induction acc as [|[k' c] rest IH]; simpl; intros Hin.
  - contradiction.
  - destruct (String.eqb_spec k k') as [->|Hne].
    + exists [], c, rest. simpl. auto.
    + destruct Hin as [Heq|Hin]; [congruence|].
      destruct (IH Hin) as (front & c0 & back & -> & Hnin & Hb).
      exists ((k', c) :: front), c0, back. simpl. rewrite Hb.
      repeat split; auto.
      intros [Heq|Hin']; [congruence|auto].
Qed.

Lemma tally_snoc (col : list label) (x : label) :
  tally (col ++ [x]) = tally_cell (tally col) x.
Proof. unfold tally. now rewrite fold_left_app. Qed.

Lemma first_pos_app_in (x : label) (col tail : list label) :
  In x col -> first_pos x (col ++ tail) = first_pos x col.
Proof.
  induction col as [|y rest IH]; simpl; [contradiction|].
  intros Hin. destruct (label_eq_dec x y) as [|Hne]; [reflexivity|].
  f_equal. apply IH. destruct Hin; [congruence|assumption].
Qed.

Lemma first_pos_in_lt (x : label) (col : list label) :
  In x col -> (first_pos x col < length col)%nat.
Proof.
  induction col as [|y rest IH]; simpl; [contradiction|].
  intros Hin. destruct (label_eq_dec x y) as [|Hne]; [lia|].
  destruct Hin; [congruence|]. apply IH in H. lia.
Qed.

Lemma occurrences_snoc_same (col : list label) (k : string) :
  occurrences (col ++ [Some k]) k = S (occurrences col k).
Proof.
  unfold occurrences. rewrite count_occ_app.
  cbn [count_occ].
  destruct (label_eq_dec (Some k) (Some k)); [lia|congruence].
Qed.

Lemma occurrences_snoc_other (col : list label) (x : label) (k : string) :
  x <> Some k -> occurrences (col ++ [x]) k = occurrences col k.
Proof.
  intros Hne. unfold occurrences. rewrite count_occ_app.
  cbn [count_occ].
  destruct (label_eq_dec x (Some k)); [congruence|lia].
Qed.

(** Sortedness for a relation carries over to a relation that agrees with
    it on the elements of the list. *)
Lemma StronglySorted_agree {A : Type} (R R' : A -> A -> Prop) (l : list A) :
  (forall a b, In a l -> In b l -> R a b -> R' a b) ->
  StronglySorted R l -> StronglySorted R' l.
Proof.
  intros Hag Hs. induction Hs as [|a l Hs IH Hall].
  - constructor.
  - constructor.
    + apply IH. intros x y Hx Hy. apply Hag; now right.
    + rewrite Forall_forall in *. intros b Hb.
      apply Hag; [now left|now right|auto].
Qed.

Lemma StronglySorted_snoc {A : Type} (R : A -> A -> Prop) (l : list A) (x : A) :
  StronglySorted R l -> Forall (fun a => R a x) l ->
  StronglySorted R (l ++ [x]).
Proof.
  intros Hs. induction Hs as [|a l Hs IH Hall]; simpl; intros Hx.
  - constructor; constructor.
  - inversion Hx; subst. constructor; [auto|].
    apply Forall_app. split; [assumption|]. constructor; [assumption|constructor].
Qed.

Lemma StronglySorted_app_cross {A : Type} (R : A -> A -> Prop) (l1 l2 : list A) :
  StronglySorted R (l1 ++ l2) ->
  forall a b, In a l1 -> In b l2 -> R a b.
Proof.
  induction l1 as [|x l1 IH]; simpl; intros Hs a b Ha Hb; [contradiction|].
  apply StronglySorted_inv in Hs. destruct Hs as [Hs Hall].
  destruct Ha as [->|Ha].
  - rewrite Forall_forall in Hall. apply Hall. apply in_or_app. now right.
  - now apply IH.
Qed.

Lemma StronglySorted_app_left {A : Type} (R : A -> A -> Prop) (l1 l2 : list A) :
  StronglySorted R (l1 ++ l2) -> StronglySorted R l1.
Proof.
  induction l1 as [|x l1 IH]; simpl; intros Hs; [constructor|].
  apply StronglySorted_inv in Hs. destruct Hs as [Hs Hall].
  constructor; [auto|]. apply Forall_app in Hall. tauto.
Qed.

Lemma labels_app (a b : list label) : labels (a ++ b) = labels a ++ labels b.
Proof.
  induction a as [|[k|] a IH]; simpl; [reflexivity| |assumption].
  now rewrite IH.
Qed.

Lemma labels_In (col : list label) (k : string) :
  In k (labels col) <-> In (Some k) col.
Proof.
  induction col as [|[k'|] col IH]; simpl.
  - tauto.
  - rewrite IH. split; (intros [H|H]; [left; congruence|now right]).
  - rewrite IH. split; [now right|]. intros [H|H]; [discriminate|assumption].
Qed.

Lemma first_pos_snoc_fresh (x : label) (col : list label) :
  ~ In x col -> first_pos x (col ++ [x]) = length col.
Proof.
  induction col as [|y rest IH]; simpl; intros Hnin.
  - destruct (label_eq_dec x x); [reflexivity|congruence].
  - destruct (label_eq_dec x y) as [->|Hne].
    + exfalso. apply Hnin. now left.
    + f_equal. apply IH. intros H. apply Hnin. now right.
Qed.

Lemma list_sum_snd_app (s t : indexed nat) :
  list_sum (map snd (s ++ t)) = (list_sum (map snd s) + list_sum (map snd t))%nat.
Proof. now rewrite map_app, list_sum_app. Qed.

(** What the tallies of a column are: one entry per distinct label, in the
    order of first occurrence, each with the number of its occurrences. *)
Lemma tally_invariant (col : list label) :
  NoDup (keys (tally col))
  /\ (forall k c, In (k, c) (tally col) ->
        c = occurrences col k /\ In (Some k) col)
  /\ (forall k, In (Some k) col -> In k (keys (tally col)))
  /\ StronglySorted (earlier col) (keys (tally col))
  /\ list_sum (map snd (tally col)) = length (labels col).
Proof.
  induction col as [|x col IH] using rev_ind.
  - cbn. repeat split; try constructor; try contradiction.
  - destruct IH as (Hnd & Hcnt & Hcov & Hord & Hsum).
    rewrite tally_snoc.
    assert (Hkeep : forall a b, In a (keys (tally col)) ->
              In b (keys (tally col)) ->
              earlier col a b -> earlier (col ++ [x]) a b).
    { intros a b Ha Hb. unfold earlier.
      apply in_map_iff in Ha. destruct Ha as ([ka ca] & <- & Ha).
      apply in_map_iff in Hb. destruct Hb as ([kb cb] & <- & Hb).
      simpl. rewrite !first_pos_app_in; auto.
      - now apply Hcnt in Hb.
      - now apply Hcnt in Ha. }
    destruct x as [k|]; simpl.
    + destruct (in_dec string_dec k (keys (tally col))) as [Hin|Hnin].
      * destruct (bump_seen k _ Hin) as (front & c & back & Heq & Hfront & ->).
        rewrite Heq in *. clear Heq.
        assert (Hk : keys (front ++ (k, S c) :: back)
                     = keys (front ++ (k, c) :: back)).
        { now rewrite !keys_app. }
        rewrite Hk.
        assert (Hback : ~ In k (keys back)).
        { rewrite keys_app in Hnd. simpl in Hnd.
          apply NoDup_remove_2 in Hnd. intros H. apply Hnd.
          apply in_or_app. now right. }
        split; [assumption|]. split; [|split; [|split]].
        -- intros k' c' Hin'.
           assert (Hcase : (k' <> k /\ In (k', c') (front ++ (k, c) :: back))
                           \/ (k' = k /\ c' = S c)).
           { apply in_app_or in Hin'. destruct Hin' as [H|[H|H]].
             - left. split.
               + intros ->. apply Hfront. apply in_map_iff.
                 exists (k, c'). auto.
               + apply in_or_app. now left.
             - right. now inversion H.
             - left. split.
               + intros ->. apply Hback. apply in_map_iff.
                 exists (k, c'). auto.
               + apply in_or_app. right. now right. }
           destruct Hcase as [[Hne H]|[-> ->]].
           ++ destruct (Hcnt _ _ H) as [-> Hc]. split.
              ** symmetry. apply occurrences_snoc_other. congruence.
              ** apply in_or_app. now left.
           ++ destruct (Hcnt k c) as [-> _].
              { apply in_or_app. right. now left. }
              split; [now rewrite occurrences_snoc_same|].
              apply in_or_app. right. now left.
        -- intros k' Hin'. apply in_app_or in Hin'.
           destruct Hin' as [H|[H|[]]]; [now apply Hcov|].
           inversion H; subst. assumption.
        -- eapply StronglySorted_agree; [|exact Hord]. exact Hkeep.
        -- rewrite list_sum_snd_app in *. simpl in *.
           rewrite labels_app, length_app. simpl. lia.
      * rewrite (bump_fresh k _ Hnin).
        assert (Hnew : ~ In (Some k) col) by (intros H; now apply Hnin, Hcov).
        split; [|split; [|split; [|split]]].
        -- rewrite keys_app. simpl.
           apply (Permutation_NoDup (Permutation_cons_append _ k)).
           now constructor.
        -- intros k' c' Hin'. apply in_app_or in Hin'.
           destruct Hin' as [H|[H|[]]].
           ++ destruct (Hcnt _ _ H) as [-> Hc]. split.
              ** symmetry. apply occurrences_snoc_other.
                 intros Heq. inversion Heq; subst. contradiction.
              ** apply in_or_app. now left.
           ++ inversion H; subst. split.
              ** rewrite occurrences_snoc_same.
                 unfold occurrences.
                 now rewrite (proj1 (count_occ_not_In label_eq_dec col (Some k'))).
              ** apply in_or_app. right. now left.
        -- intros k' Hin'. rewrite keys_app. apply in_or_app.
           apply in_app_or in Hin'. destruct Hin' as [H|[H|[]]].
           ++ left. now apply Hcov.
           ++ right. inversion H. now left.
        -- rewrite keys_app. simpl. apply StronglySorted_snoc.
           ++ eapply StronglySorted_agree; [|exact Hord]. exact Hkeep.
           ++ rewrite Forall_forall. intros a Ha. unfold earlier.
              apply in_map_iff in Ha. destruct Ha as ([ka ca] & <- & Ha).
              simpl. apply Hcnt in Ha. destruct Ha as [_ Ha].
              rewrite first_pos_app_in by assumption.
              rewrite first_pos_snoc_fresh by assumption.
              now apply first_pos_in_lt.
        -- rewrite list_sum_snd_app. simpl.
           rewrite labels_app, length_app. simpl. lia.
    + split; [assumption|]. split; [|split; [|split]].
      * intros k c Hin. destruct (Hcnt _ _ Hin) as [-> Hc]. split.
        -- symmetry. apply occurrences_snoc_other. discriminate.
        -- apply in_or_app. now left.
      * intros k Hin. apply in_app_or in Hin.
        destruct Hin as [H|[H|[]]]; [now apply Hcov|discriminate].
      * eapply StronglySorted_agree; [|exact Hord]. exact Hkeep.
      * rewrite labels_app. simpl. now rewrite app_nil_r.
Qed.

Lemma insert_desc_perm (x : string * nat) (l : indexed nat) :
  Permutation (insert_desc x l) (x :: l).
Proof.
  induction l as [|y ys IH]; simpl.
  - apply Permutation_refl.
  - destruct (snd y <=? snd x)%nat.
    + apply Permutation_refl.
    + eapply perm_trans; [apply perm_skip, IH|apply perm_swap].
Qed.

Lemma sort_desc_perm (l : indexed nat) : Permutation (sort_desc l) l.
Proof.
  induction l as [|x l IH]; simpl.
  - constructor.
  - eapply perm_trans; [apply insert_desc_perm|now apply perm_skip].
Qed.

(** Inserting an entry whose label occurs before the labels of a sorted
    list keeps the list sorted: among equal counts it goes first. *)
Lemma insert_desc_sorted (col : list label) (x : string * nat)
    (l : indexed nat) :
  StronglySorted (ranks_before col) l ->
  Forall (fun y => earlier col (fst x) (fst y)) l ->
  StronglySorted (ranks_before col) (insert_desc x l).
Proof.
  intros Hs. induction Hs as [|y ys Hs IH Hall]; simpl; intros Hx.
  - constructor; constructor.
  - inversion Hx as [|? ? Hxy Hxys]; subst.
    destruct (Nat.leb_spec (snd y) (snd x)) as [Hle|Hlt].
    + constructor; [now constructor|].
      constructor.
      * unfold ranks_before, earlier in *. lia.
      * rewrite Forall_forall in *. intros z Hz.
        specialize (Hall z Hz). specialize (Hxys z Hz).
        unfold ranks_before, earlier in *. lia.
    + constructor; [now apply IH|].
      apply (Permutation_Forall (Permutation_sym (insert_desc_perm x ys))).
      constructor; [|assumption].
      unfold ranks_before. lia.
Qed.

Lemma sort_desc_sorted (col : list label) (l : indexed nat) :
  StronglySorted (earlier col) (keys l) ->
  StronglySorted (ranks_before col) (sort_desc l).
Proof.
  induction l as [|x l IH]; simpl; intros Hs.
  - constructor.
  - apply StronglySorted_inv in Hs. destruct Hs as [Hs Hall].
    apply insert_desc_sorted; [now apply IH|].
    apply (Permutation_Forall (Permutation_sym (sort_desc_perm l))).
    unfold keys in Hall. rewrite Forall_map in Hall. exact Hall.
Qed.

(** ** What [value_counts] returns *)

Lemma value_counts_perm (col : list label) :
  Permutation (value_counts col) (tally col).
Proof. apply sort_desc_perm. Qed.

Lemma value_counts_NoDup (col : list label) :
  NoDup (keys (value_counts col)).
Proof.
  apply (Permutation_NoDup
           (Permutation_sym (Permutation_map fst (value_counts_perm col)))).
  apply tally_invariant.
Qed.

Lemma value_counts_count (col : list label) (k : string) (c : nat) :
  In (k, c) (value_counts col) ->
  c = occurrences col k /\ In (Some k) col.
Proof.
  intros Hin. apply (tally_invariant col).
  now apply (Permutation_in _ (value_counts_perm col)).
Qed.

Lemma value_counts_covers (col : list label) (k : string) :
  In (Some k) col -> In (k, occurrences col k) (value_counts col).
Proof.
  intros Hin.
  destruct (tally_invariant col) as (_ & Hcnt & Hcov & _).
  apply Hcov in Hin. apply in_map_iff in Hin.
  destruct Hin as ([k' c] & Hk & Hin). simpl in Hk. subst k'.
  destruct (Hcnt _ _ Hin) as [-> _].
  now apply (Permutation_in _ (Permutation_sym (value_counts_perm col))).
Qed.

Lemma value_counts_total (col : list label) :
  list_sum (map snd (value_counts col)) = length (labels col).
Proof.
  destruct (tally_invariant col) as (_ & _ & _ & _ & <-).
  apply Permutation_list_sum, Permutation_map, value_counts_perm.
Qed.

Lemma value_counts_sorted (col : list label) :
  StronglySorted (ranks_before col) (value_counts col).
Proof. apply sort_desc_sorted, tally_invariant. Qed.

Lemma value_counts_distinct (col : list label) :
  length (value_counts col) = length (distinct_labels col).
Proof.
  rewrite <- (length_map fst (value_counts col)).
  apply Permutation_length, NoDup_Permutation.
  - apply value_counts_NoDup.
  - apply NoDup_nodup.
  - intros k. unfold distinct_labels. rewrite nodup_In, labels_In.
    split.
    + intros Hin. apply in_map_iff in Hin.
      destruct Hin as ([k' c] & Hk & Hin). simpl in Hk. subst k'.
      now apply value_counts_count in Hin.
    + intros Hin. apply in_map_iff.
      exists (k, occurrences col k). split; [reflexivity|].
      now apply value_counts_covers.
Qed.

Lemma labels_length_le (col : list label) :
  (length (labels col) <= length col)%nat.
Proof. induction col as [|[k|] col IH]; simpl; lia. Qed.

Lemma labels_length_full (col : list label) :
  ~ In None col -> length (labels col) = length col.
Proof.
  induction col as [|[k|] col IH]; simpl; intros Hnin.
  - reflexivity.
  - f_equal. apply IH. intros H. apply Hnin. now right.
  - exfalso. apply Hnin. now left.
Qed.

End Tally.

Section Percentages.

Import Series.
Local Open Scope list_scope.
Local Open Scope Q_scope.

Lemma Qsum_nil : Qsum [] = 0.
Proof. reflexivity. Qed.

Lemma Qsum_cons (x : Q) (l : list Q) : Qsum (x :: l) = x + Qsum l.
Proof. reflexivity. Qed.

(** ** The exact share *)

Lemma share_sum (n : nat) (l : indexed nat) :
  Qsum (map (fun kc => share n (snd kc)) l)
  == share n (list_sum (map snd l)).
Proof.
  unfold share. induction l as [|[k c] l IH]; simpl.
  - unfold Qdiv. ring.
  - rewrite IH. rewrite Nat2Z.inj_add, inject_Z_plus.
    unfold Qdiv. ring.
Qed.

Lemma share_le_100 (n c : nat) :
  (0 < n)%nat -> (c <= n)%nat -> share n c <= 100.
Proof.
  intros Hn Hc. unfold share.
  assert (Hpos : 0 < inject_Z (Z.of_nat n)).
  { change 0 with (inject_Z 0). rewrite <- Zlt_Qlt. lia. }
  assert (Hle : inject_Z (Z.of_nat c) / inject_Z (Z.of_nat n) <= 1).
  { apply Qle_shift_div_r; [assumption|].
    rewrite Qmult_1_l. rewrite <- Zle_Qle. lia. }
  lra.
Qed.

Lemma share_nonneg (n c : nat) : (0 < n)%nat -> 0 <= share n c.
Proof.
  intros Hn. unfold share.
  assert (Hpos : 0 < inject_Z (Z.of_nat n)).
  { change 0 with (inject_Z 0). rewrite <- Zlt_Qlt. lia. }
  assert (Hc : 0 <= inject_Z (Z.of_nat c) / inject_Z (Z.of_nat n)).
  { apply Qle_shift_div_l; [assumption|].
    rewrite Qmult_0_l. change 0 with (inject_Z 0). rewrite <- Zle_Qle. lia. }
  lra.
Qed.

Lemma share_all (n : nat) : (0 < n)%nat -> share n n == 100.
Proof.
  intros Hn. unfold share.
  assert (Hnz : ~ inject_Z (Z.of_nat n) == 0).
  { change 0 with (inject_Z 0). rewrite inject_Z_injective. lia. }
  field. exact Hnz.
Qed.

(** ** The share in double precision *)

Lemma rnd_1 : rnd 1 = 1.
Proof. vm_compute. reflexivity. Qed.

Lemma rnd_100 : rnd 100 = 100.
Proof. vm_compute. reflexivity. Qed.

Lemma rnd_10000 : rnd 10000 = 10000.
Proof. vm_compute. reflexivity. Qed.

Lemma rnd_le (x c : Q) : 0 <= x -> x <= c -> rnd c = c -> rnd x <= c.
Proof. intros Hx Hc Hfix. rewrite <- Hfix. now apply rnd_mono. Qed.

Lemma of_int_nonneg (z : Z) : (0 <= z)%Z -> 0 <= of_int z.
Proof.
  intros Hz. apply rnd_nonneg. change 0 with (inject_Z 0).
  now rewrite <- Zle_Qle.
Qed.

Lemma of_int_mono (a b : Z) : (0 <= a <= b)%Z -> of_int a <= of_int b.
Proof.
  intros [Ha Hab]. apply rnd_mono.
  - change 0 with (inject_Z 0). now rewrite <- Zle_Qle.
  - now rewrite <- Zle_Qle.
Qed.

Lemma of_int_ge_1 (z : Z) : (1 <= z)%Z -> 1 <= of_int z.
Proof.
  intros Hz. unfold of_int.
  apply Qle_trans with (rnd 1); [rewrite rnd_1; apply Qle_refl|].
  apply rnd_mono; [discriminate|].
  change 1 with (inject_Z 1). now rewrite <- Zle_Qle.
Qed.

(** The conversion of a non-negative integer has a relative error of at
    most 2^-53. *)
Lemma of_int_rel (z : Z) :
  (0 <= z)%Z ->
  inject_Z z - inject_Z z * pow2 (-53) <= of_int z
  <= inject_Z z + inject_Z z * pow2 (-53).
Proof.
  intros Hz. unfold of_int.
  destruct (Z.eq_dec z 0) as [->|Hnz].
  - vm_compute. split; discriminate.
  - apply rnd_error_rel. change 1 with (inject_Z 1).
    rewrite <- Zle_Qle. lia.
Qed.

(** The float share of [c] out of [n] lies between 0 and 100. *)
Lemma float_share_bounds (n c : Z) :
  (0 <= c <= n)%Z -> (1 <= n)%Z -> 0 <= float_share n c <= 100.
Proof.
  intros [Hc Hcn] Hn. unfold float_share, mul, div.
  pose proof (of_int_nonneg c Hc) as Ha.
  pose proof (of_int_mono c n (conj Hc Hcn)) as Hab.
  pose proof (of_int_ge_1 n Hn) as Hb.
  set (a := of_int c) in *. set (b := of_int n) in *.
  assert (Hq0 : 0 <= a / b).
  { apply Qle_shift_div_l; [lra|]. lra. }
  assert (Hq1 : a / b <= 1).
  { apply Qle_shift_div_r; [lra|]. lra. }
  pose proof (rnd_nonneg _ Hq0) as Hr0.
  pose proof (rnd_mono _ _ Hq0 Hq1) as Hr1. rewrite rnd_1 in Hr1.
  set (r := rnd (a / b)) in *.
  split.
  - apply rnd_nonneg. lra.
  - apply rnd_le; [lra|lra|exact rnd_100].
Qed.

(** The float share is within 6.25 * 10^-14 of the exact share. *)
Lemma float_share_close (n c : nat) :
  (c <= n)%nat -> (0 < n)%nat ->
  share n c - (1 # 16000000000000)
  <= float_share (Z.of_nat n) (Z.of_nat c)
  <= share n c + (1 # 16000000000000).
Proof.
  intros Hcn Hn. unfold float_share, mul, div, share.
  assert (HcZ : (0 <= Z.of_nat c <= Z.of_nat n)%Z) by lia.
  assert (HnZ : (1 <= Z.of_nat n)%Z) by lia.
  pose proof (of_int_rel (Z.of_nat c) (proj1 HcZ)) as Ha.
  pose proof (of_int_rel (Z.of_nat n) ltac:(lia)) as Hb.
  pose proof (of_int_nonneg (Z.of_nat c) (proj1 HcZ)) as Ha0.
  pose proof (of_int_mono _ _ HcZ) as Hab.
  pose proof (of_int_ge_1 _ HnZ) as Hb1.
  assert (HC : 0 <= inject_Z (Z.of_nat c)).
  { change 0 with (inject_Z 0). rewrite <- Zle_Qle. lia. }
  assert (HN : 1 <= inject_Z (Z.of_nat n)).
  { change 1 with (inject_Z 1). rewrite <- Zle_Qle. lia. }
  assert (HCN : inject_Z (Z.of_nat c) <= inject_Z (Z.of_nat n)).
  { rewrite <- Zle_Qle. lia. }
  change (pow2 (-53)) with (1 # 9007199254740992) in Ha, Hb.
  set (a := of_int (Z.of_nat c)) in *. set (b := of_int (Z.of_nat n)) in *.
  set (C := inject_Z (Z.of_nat c)) in *. set (N := inject_Z (Z.of_nat n)) in *.
  set (s := C / N).
  assert (Hs : C == s * N) by (unfold s; field; lra).
  assert (Hs0 : 0 <= s) by (unfold s; apply Qle_shift_div_l; lra).
  assert (Hs1 : s <= 1) by (unfold s; apply Qle_shift_div_r; lra).
  set (u := 1 # 9007199254740992) in *.
  (* the quotient of the two converted integers *)
  assert (Hq : s - 3 * u <= a / b <= s + 3 * u).
  { split.
    - apply Qle_shift_div_l; [lra|].
      destruct (Qlt_le_dec (s - 3 * u) 0) as [Hneg|Hpos].
      + apply Qle_trans with 0; [|exact Ha0].
        assert (H : 0 <= (3 * u - s) * b)
          by (apply Qmult_le_0_compat; lra).
        lra.
      + assert (P1 : 0 <= (s - 3 * u) * (N + N * u - b))
          by (apply Qmult_le_0_compat; lra).
        assert (P2 : 0 <= N * (3 + 3 * u - 2 * s))
          by (apply Qmult_le_0_compat; unfold u; lra).
        unfold u in *. nra.
    - apply Qle_shift_div_r; [lra|].
      assert (P1 : 0 <= (s + 3 * u) * (b - (N - N * u)))
        by (apply Qmult_le_0_compat; unfold u in *; lra).
      assert (P2 : 0 <= N * (3 - 3 * u - 2 * s))
        by (apply Qmult_le_0_compat; unfold u; lra).
      unfold u in *. nra. }
  assert (Hq0 : 0 <= a / b) by (apply Qle_shift_div_l; lra).
  assert (Hq1 : a / b <= 1) by (apply Qle_shift_div_r; lra).
  pose proof (rnd_nonneg _ Hq0) as Hr0.
  pose proof (rnd_mono _ _ Hq0 Hq1) as Hr1. rewrite rnd_1 in Hr1.
  assert (Hr : a / b - pow2 (1 - 54) <= rnd (a / b) <= a / b + pow2 (1 - 54)).
  { apply rnd_error_below; [exact Hq0| |lia].
    change (pow2 1) with 2. lra. }
  change (pow2 (1 - 54)) with (1 # 9007199254740992) in Hr.
  set (r := rnd (a / b)) in *.
  assert (Hx : r * 100 - pow2 (7 - 54) <= rnd (r * 100)
               <= r * 100 + pow2 (7 - 54)).
  { apply rnd_error_below; [lra| |lia].
    change (pow2 7) with 128. lra. }
  change (pow2 (7 - 54)) with (1 # 140737488355328) in Hx.
  fold s. unfold u in *. lra.
Qed.

(** ** Rounding to two decimals *)

Lemma round_half_even_near (q : Q) (z : Z) :
  inject_Z z - (1 # 2) < q -> q < inject_Z z + (1 # 2) ->
  round_half_even q = z.
Proof.
  intros Hlo Hhi. pose proof (round_half_even_close q) as [H1 H2].
  assert (Ha : (z - 1 < round_half_even q)%Z).
  { rewrite Zlt_Qlt. unfold Z.sub. rewrite inject_Z_plus, inject_Z_opp.
    change (inject_Z 1) with 1. lra. }
  assert (Hb : (round_half_even q < z + 1)%Z).
  { rewrite Zlt_Qlt. rewrite inject_Z_plus.
    change (inject_Z 1) with 1. lra. }
  lia.
Qed.

(** What [round2] does to a float between 0 and 100: the number of
    hundredths [k] nearest to the product by 100, which is between 0 and
    10000 and within a half plus 2^-40 of a hundred times the float; the
    result is between 0 and 100 and is shown as [k] hundredths. *)
Lemma round2_percent (x : Q) :
  0 <= x <= 100 ->
  exists k : Z,
    (0 <= k <= 10000)%Z
    /\ x * 100 - (1 # 2) - (1 # 1099511627776) <= inject_Z k
       <= x * 100 + (1 # 2) + (1 # 1099511627776)
    /\ 0 <= round2 x <= 100
    /\ shown (round2 x) == inject_Z k / 100.
Proof.
  intros [Hx0 Hx1]. unfold round2, mul, div, rint.
  assert (Hy : x * 100 - pow2 (14 - 54) <= rnd (x * 100)
               <= x * 100 + pow2 (14 - 54)).
  { apply rnd_error_below; [lra| |lia].
    change (pow2 14) with 16384. lra. }
  change (pow2 (14 - 54)) with (1 # 1099511627776) in Hy.
  assert (Hy0 : 0 <= rnd (x * 100)) by (apply rnd_nonneg; lra).
  assert (Hy1 : rnd (x * 100) <= 10000).
  { apply rnd_le; [lra|lra|exact rnd_10000]. }
  set (y := rnd (x * 100)) in *.
  pose proof (round_half_even_close y) as Hk.
  assert (Hk0 : (0 <= round_half_even y)%Z)
    by now apply round_half_even_nonneg.
  assert (Hk1 : (round_half_even y <= 10000)%Z)
    by now apply round_half_even_le_int.
  set (k := round_half_even y) in *.
  assert (HK0 : 0 <= inject_Z k).
  { change 0 with (inject_Z 0). now rewrite <- Zle_Qle. }
  assert (HK1 : inject_Z k <= 10000).
  { change 10000 with (inject_Z 10000). now rewrite <- Zle_Qle. }
  assert (Hd0 : 0 <= inject_Z k / 100) by (apply Qle_shift_div_l; lra).
  assert (Hd1 : inject_Z k / 100 <= 100) by (apply Qle_shift_div_r; lra).
  assert (Hp : inject_Z k / 100 - pow2 (7 - 54) <= rnd (inject_Z k / 100)
               <= inject_Z k / 100 + pow2 (7 - 54)).
  { apply rnd_error_below; [exact Hd0| |lia].
    change (pow2 7) with 128. lra. }
  change (pow2 (7 - 54)) with (1 # 140737488355328) in Hp.
  exists k. split; [lia|]. split; [lra|]. split.
  - split.
    + now apply rnd_nonneg.
    + apply rnd_le; [exact Hd0|exact Hd1|exact rnd_100].
  - unfold shown.
    assert (Hdk : inject_Z k / 100 * 100 == inject_Z k) by (field; discriminate).
    set (d := inject_Z k / 100) in *.
    rewrite (round_half_even_near (rnd d * 100) k); [reflexivity| |]; lra.
Qed.

(** The percentage shown for a group is within [slack_per_group] of the
    exact share of the group. *)
Lemma pct_of_close (n c : nat) :
  (c <= n)%nat -> (0 < n)%nat ->
  share n c - slack_per_group <= shown (pct_of n c)
  <= share n c + slack_per_group.
Proof.
  intros Hcn Hn. unfold pct_of, slack_per_group.
  pose proof (float_share_close n c Hcn Hn) as Hclose.
  assert (Hb : 0 <= float_share (Z.of_nat n) (Z.of_nat c) <= 100)
    by (apply float_share_bounds; lia).
  destruct (round2_percent _ Hb) as (k & _ & Hk & _ & Hshown).
  rewrite Hshown.
  set (x := float_share (Z.of_nat n) (Z.of_nat c)) in *.
  set (K := inject_Z k) in *.
  unfold Qdiv. change (/ 100) with (1 # 100). lra.
Qed.

(** The percentages shown for a list of groups add up to the exact share
    of their rows, up to [slack_per_group] for each group. *)
Lemma shown_total_close (n : nat) (l : indexed nat) :
  (0 < n)%nat ->
  Forall (fun kc => (snd kc <= n)%nat) l ->
  let slack := inject_Z (Z.of_nat (length l)) * slack_per_group in
  share n (list_sum (map snd l)) - slack
  <= shown_total (map (entry_of n) l)
  <= share n (list_sum (map snd l)) + slack.
Proof.
  intros Hn Hall. cbv zeta. rewrite <- share_sum. unfold shown_total.
  induction Hall as [|[k c] l Hc Hall IH].
  - simpl map. simpl length. rewrite !Qsum_nil.
    change (inject_Z (Z.of_nat 0)) with 0. lra.
  - simpl map. simpl length. rewrite !Qsum_cons.
    change (entry_pct (entry_of n (k, c))) with (pct_of n c).
    rewrite Nat2Z.inj_succ, <- Z.add_1_r, inject_Z_plus.
    change (inject_Z 1) with 1.
    pose proof (pct_of_close n c Hc Hn) as Hclose.
    cbn [snd] in *. lra.
Qed.

(** For fewer than 2^32 rows the rounding of the double precision
    operations never moves a percentage across a rounding boundary: the
    exact share is a multiple of [1 / n], so it is either on a boundary or
    further from it than the error of the operations. The percentage shown
    is then within half a hundredth of the exact share. *)
Lemma pct_of_tight (n c : nat) :
  (c <= n)%nat -> (0 < n)%nat -> (Z.of_nat n < 2 ^ 32)%Z ->
  share n c - (1 # 200) <= shown (pct_of n c) <= share n c + (1 # 200).
Proof.
  intros Hcn Hn Hsmall. unfold pct_of.
  pose proof (float_share_close n c Hcn Hn) as Hclose.
  assert (Hb : 0 <= float_share (Z.of_nat n) (Z.of_nat c) <= 100)
    by (apply float_share_bounds; lia).
  destruct (round2_percent _ Hb) as (k & _ & Hk & _ & Hshown).
  rewrite Hshown. unfold share in *.
  set (x := float_share (Z.of_nat n) (Z.of_nat c)) in *.
  assert (HN1 : 1 <= inject_Z (Z.of_nat n)).
  { change 1 with (inject_Z 1). rewrite <- Zle_Qle. lia. }
  assert (HN2 : inject_Z (Z.of_nat n) <= 4294967296).
  { change 4294967296 with (inject_Z (2 ^ 32)). rewrite <- Zle_Qle. lia. }
  assert (Hs : inject_Z (Z.of_nat c)
               == inject_Z (Z.of_nat c) / inject_Z (Z.of_nat n)
                  * inject_Z (Z.of_nat n)) by (field; lra).
  assert (Hup : (2 * k * Z.of_nat n <= 20000 * Z.of_nat c + Z.of_nat n)%Z).
  { destruct (Z_le_gt_dec (2 * k * Z.of_nat n)
                (20000 * Z.of_nat c + Z.of_nat n)) as [H|H];
      [exact H|exfalso].
    assert (H1 : (20000 * Z.of_nat c + Z.of_nat n + 1
                  <= 2 * k * Z.of_nat n)%Z) by lia.
    rewrite Zle_Qle in H1.
    rewrite !inject_Z_plus, !inject_Z_mult in H1.
    change (inject_Z 20000) with 20000 in H1.
    change (inject_Z 2) with 2 in H1. change (inject_Z 1) with 1 in H1.
    set (C := inject_Z (Z.of_nat c)) in *.
    set (N := inject_Z (Z.of_nat n)) in *. set (K := inject_Z k) in *.
    set (s := C / N) in *.
    assert (P : 0 <= (20000 * s + 1 + (1 # 50000000000) - 2 * K) * N)
      by (apply Qmult_le_0_compat; lra).
    nra. }
  assert (Hlo : (20000 * Z.of_nat c <= 2 * k * Z.of_nat n + Z.of_nat n)%Z).
  { destruct (Z_le_gt_dec (20000 * Z.of_nat c)
                (2 * k * Z.of_nat n + Z.of_nat n)) as [H|H];
      [exact H|exfalso].
    assert (H1 : (2 * k * Z.of_nat n + Z.of_nat n + 1
                  <= 20000 * Z.of_nat c)%Z) by lia.
    rewrite Zle_Qle in H1.
    rewrite !inject_Z_plus, !inject_Z_mult in H1.
    change (inject_Z 20000) with 20000 in H1.
    change (inject_Z 2) with 2 in H1. change (inject_Z 1) with 1 in H1.
    set (C := inject_Z (Z.of_nat c)) in *.
    set (N := inject_Z (Z.of_nat n)) in *. set (K := inject_Z k) in *.
    set (s := C / N) in *.
    assert (P : 0 <= (2 * K + 1 + (1 # 50000000000) - 20000 * s) * N)
      by (apply Qmult_le_0_compat; lra).
    nra. }
  rewrite Zle_Qle in Hup, Hlo.
  rewrite !inject_Z_plus, !inject_Z_mult in Hup, Hlo.
  change (inject_Z 20000) with 20000 in Hup, Hlo.
  change (inject_Z 2) with 2 in Hup, Hlo.
  set (C := inject_Z (Z.of_nat c)) in *.
  set (N := inject_Z (Z.of_nat n)) in *. set (K := inject_Z k) in *.
  set (s := C / N) in *.
  assert (Hu : 2 * K <= 20000 * s + 1).
  { apply (Qmult_lt_0_le_reg_r _ _ N); [lra|]. lra. }
  assert (Hl : 20000 * s <= 2 * K + 1).
  { apply (Qmult_lt_0_le_reg_r _ _ N); [lra|]. lra. }
  unfold Qdiv. change (/ 100) with (1 # 100). lra.
Qed.

Lemma shown_total_tight (n : nat) (l : indexed nat) :
  (0 < n)%nat -> (Z.of_nat n < 2 ^ 32)%Z ->
  Forall (fun kc => (snd kc <= n)%nat) l ->
  let slack := inject_Z (Z.of_nat (length l)) * (1 # 200) in
  share n (list_sum (map snd l)) - slack
  <= shown_total (map (entry_of n) l)
  <= share n (list_sum (map snd l)) + slack.
Proof.
  intros Hn Hsmall Hall. cbv zeta. rewrite <- share_sum. unfold shown_total.
  induction Hall as [|[k c] l Hc Hall IH].
  - simpl map. simpl length. rewrite !Qsum_nil.
    change (inject_Z (Z.of_nat 0)) with 0. lra.
  - simpl map. simpl length. rewrite !Qsum_cons.
    change (entry_pct (entry_of n (k, c))) with (pct_of n c).
    rewrite Nat2Z.inj_succ, <- Z.add_1_r, inject_Z_plus.
    change (inject_Z 1) with 1.
    pose proof (pct_of_tight n c Hc Hn Hsmall) as Hclose.
    cbn [snd] in *. lra.
Qed.

(** ** Reading the percentages back by label *)

Lemma pct_of_eq (n c : nat) :
  pct_of n c
  = round2 (Float64.mul (Float64.div (Float64.of_int (Z.of_nat c))
                                     (Float64.of_int (Z.of_nat n))) 100).
Proof. reflexivity. Qed.

Lemma percentages_cons (k : string) (c : nat) (rest : indexed nat) (n : nat) :
  percentages ((k, c) :: rest) n
  = (k, round2 (Float64.mul (Float64.div (Float64.of_int (Z.of_nat c))
                                         (Float64.of_int (Z.of_nat n))) 100))
    :: percentages rest n.
Proof. reflexivity. Qed.

Lemma getitem_percentages (counts : indexed nat) (n : nat) (k : string)
    (c : nat) :
  NoDup (keys counts) -> In (k, c) counts ->
  getitem (percentages counts n) k = Ok (pct_of n c).
Proof.
  induction counts as [|[k' c'] rest IH]; intros Hnd Hin; [contradiction|].
  rewrite percentages_cons, <- pct_of_eq. cbn [getitem].
  inversion Hnd as [|? ? Hnin Hnd']; subst.
  destruct Hin as [Heq|Hin].
  - inversion Heq; subst. rewrite String.eqb_refl. reflexivity.
  - destruct (String.eqb_spec k k') as [->|Hne].
    + exfalso. apply Hnin. apply in_map_iff. exists (k', c). auto.
    + apply IH; assumption.
Qed.

(** The loop over the listed groups never misses a label, and pairs each
    group with the rounded share of its own count. *)
Lemma breakdown_entries_ok (counts listed : indexed nat) (n : nat) :
  NoDup (keys counts) -> incl listed counts ->
  breakdown_entries listed (percentages counts n)
  = Ok (map (entry_of n) listed).
Proof.
  intros Hnd. unfold breakdown_entries.
  induction listed as [|[k c] rest IH]; simpl; intros Hincl.
  - reflexivity.
  - rewrite (getitem_percentages counts n k c Hnd).
    + simpl. rewrite IH; [reflexivity|].
      intros x Hx. apply Hincl. now right.
    + apply Hincl. now left.
Qed.

Lemma listed_groups_incl (top : option nat) (counts : indexed nat) :
  incl (listed_groups top counts) counts.
Proof.
  destruct top as [n|]; simpl.
  - unfold head. intros x Hx.
    rewrite <- (firstn_skipn n counts). apply in_or_app. now left.
  - apply incl_refl.
Qed.

Lemma listed_groups_sum_le (top : option nat) (counts : indexed nat) :
  (list_sum (map snd (listed_groups top counts))
   <= list_sum (map snd counts))%nat.
Proof.
  destruct top as [n|]; simpl; [|lia].
  unfold head. rewrite <- (firstn_skipn n counts) at 2.
  rewrite map_app, list_sum_app. lia.
Qed.

End Percentages.

Section DigestFacts.

Local Open Scope list_scope.

Lemma append_assoc (a b c : string) :
  ((a ++ b) ++ c)%string = (a ++ b ++ c)%string.
Proof. induction a as [|x a IH]; simpl; [reflexivity|now rewrite IH]. Qed.

Lemma Ok_inj {A : Type} (a b : A) : Ok a = Ok b -> a = b.
Proof. congruence. Qed.

Lemma append_nil_r (a : string) : (a ++ "")%string = a.
Proof. induction a as [|x a IH]; simpl; [reflexivity|now rewrite IH]. Qed.

Lemma append_length (a b : string) :
  String.length (a ++ b)%string = (String.length a + String.length b)%nat.
Proof. induction a as [|x a IH]; simpl; [reflexivity|now rewrite IH]. Qed.

Lemma occurs_in_self (part : string) : occurs_in part part.
Proof. exists ""%string, ""%string. now rewrite append_nil_r. Qed.

Lemma occurs_in_prepend (a part whole : string) :
  occurs_in part whole -> occurs_in part (a ++ whole)%string.
Proof.
  intros (x & y & ->). exists (a ++ x)%string, y. now rewrite append_assoc.
Qed.

Lemma occurs_in_append (part whole b : string) :
  occurs_in part whole -> occurs_in part (whole ++ b)%string.
Proof.
  intros (x & y & ->). exists x, (y ++ b)%string.
  now rewrite !append_assoc.
Qed.

Lemma select_rows_mask (f : TransactionRow -> bool) (rs : list TransactionRow) :
  select_rows rs (map f rs) = filter f rs.
Proof.
  induction rs as [|r rs IH]; simpl; [reflexivity|].
  destruct (f r); now rewrite IH.
Qed.

Lemma column_present {A : Type} (d : DataFrame) (name : string)
    (proj : TransactionRow -> A) :
  has_column name d = true -> column d name proj = Ok (map proj (rows d)).
Proof. intros H. unfold column. now rewrite H. Qed.

(** Reading the flag column never raises: it is read under its own guard. *)
Lemma fraud_count_ok (d : DataFrame) :
  fraud_count d
  = Ok (if has_column "Fraud_Flag" d
        then Series.sum_int (map Fraud_Flag (rows d)) else 0%Z).
Proof.
  unfold fraud_count, column.
  destruct (has_column "Fraud_Flag" d); reflexivity.
Qed.

(** The division is only evaluated for a positive divisor. *)
Lemma fraud_rate_ok (total : nat) (count : Z) :
  fraud_rate total count
  = Ok (if (0 <? total)%nat
        then float_share (Z.of_nat total) count
        else 0%Q).
Proof.
  unfold fraud_rate, truediv.
  destruct (Nat.ltb_spec 0 total) as [Hpos|Hz]; [|reflexivity].
  destruct (Qeq_bool (Float64.of_int (Z.of_nat total)) 0) eqn:Hq;
    [|reflexivity].
  apply Qeq_bool_eq in Hq.
  pose proof (of_int_ge_1 (Z.of_nat total) ltac:(lia)) as H1.
  exfalso. rewrite Hq in H1. apply (Qlt_not_le 0 1); [reflexivity|exact H1].
Qed.

Lemma fraud_rows_ok (d : DataFrame) : fraud_rows d = Ok (fraud_frame d).
Proof.
  unfold fraud_rows, fraud_frame, column, select.
  destruct (has_column "Fraud_Flag" d); [|reflexivity].
  simpl. rewrite map_map.
  now rewrite (select_rows_mask is_fraud).
Qed.

(** The entries of a breakdown: the listed groups of [value_counts], each
    with the rounded share of its count among the fraud rows. *)
Lemma category_entries_ok (f : DataFrame) (name : string)
    (proj : TransactionRow -> Series.label) (top : option nat) :
  has_column name f = true ->
  category_entries f name proj top
  = Ok (map (entry_of (len f))
            (listed_groups top (Series.value_counts (map proj (rows f))))).
Proof.
  intros Hcol. unfold category_entries.
  rewrite (column_present _ _ _ Hcol). simpl.
  apply (breakdown_entries_ok _ (listed_groups top _)).
  - apply value_counts_NoDup.
  - apply listed_groups_incl.
Qed.

Lemma category_section_ok (f : DataFrame) (name : string)
    (proj : TransactionRow -> Series.label) (top : option nat)
    (title tail : string) :
  category_section f name proj top title tail
  = Ok (if has_column name f
        then (nl ++ title ++ nl
              ++ String.concat ""
                   (map (render_entry tail)
                      (map (entry_of (len f))
                         (listed_groups top
                            (Series.value_counts (map proj (rows f)))))))%string
        else ""%string).
Proof.
  unfold category_section.
  destruct (has_column name f) eqn:Hcol; [|reflexivity].
  now rewrite (category_entries_ok _ _ _ _ Hcol).
Qed.

Lemma purchase_section_total (f : DataFrame) :
  exists s, purchase_section f = Ok s
            /\ (has_column "Purchase_Amount" f = false -> s = ""%string).
Proof.
  unfold purchase_section, column.
  destruct (has_column "Purchase_Amount" f); simpl.
  - eexists. split; [reflexivity|discriminate].
  - exists ""%string. split; reflexivity.
Qed.

Lemma age_section_total (f : DataFrame) :
  exists s, age_section f = Ok s
            /\ (has_column "Customer_Age" f = false -> s = ""%string).
Proof.
  unfold age_section, column.
  destruct (has_column "Customer_Age" f); simpl.
  - eexists. split; [reflexivity|discriminate].
  - exists ""%string. split; reflexivity.
Qed.

(** None of the blocks of the statistics raises; a block whose column does
    not exist adds nothing. *)
Lemma fraud_statistics_shape (f : DataFrame) :
  exists s1 s2 s3 s4 s5 s6 s7 s8,
    loyalty_section f = Ok s1 /\ payment_section f = Ok s2
    /\ product_section f = Ok s3 /\ store_section f = Ok s4
    /\ location_section f = Ok s5 /\ device_section f = Ok s6
    /\ purchase_section f = Ok s7 /\ age_section f = Ok s8
    /\ fraud_statistics f
       = Ok (statistics_heading (len f)
             ++ s1 ++ s2 ++ s3 ++ s4 ++ s5 ++ s6 ++ s7 ++ s8
             ++ time_note f)%string.
Proof.
  destruct (purchase_section_total f) as (s7 & H7 & _).
  destruct (age_section_total f) as (s8 & H8 & _).
  unfold fraud_statistics.
  unfold loyalty_section, payment_section, product_section, store_section,
    location_section, device_section.
  rewrite !category_section_ok, H7, H8.
  do 6 eexists. exists s7, s8.
  repeat (split; [reflexivity|]). reflexivity.
Qed.

(** The digest of an available dataset: it never raises, and it is the
    overview, the key-columns block and, when there is a fraud row, the
    statistics of the fraud rows. *)
Lemma get_dataset_summary_shape (d : DataFrame) :
  exists count rate stats,
    fraud_count d = Ok count
    /\ fraud_rate (len d) count = Ok rate
    /\ get_dataset_summary (Some d)
       = Ok ((overview_block (len d) count rate ++ key_columns_block)
             ++ stats)%string
    /\ (len (fraud_frame d) = 0%nat -> stats = ""%string)
    /\ ((0 < len (fraud_frame d))%nat ->
        fraud_statistics (fraud_frame d) = Ok stats).
Proof.
  destruct (fraud_statistics_shape (fraud_frame d))
    as (s1 & s2 & s3 & s4 & s5 & s6 & s7 & s8 & _ & _ & _ & _ & _ & _ & _ & _
        & Hstats).
  exists (if has_column "Fraud_Flag" d
          then Series.sum_int (map Fraud_Flag (rows d)) else 0%Z).
  eexists.
  exists (if (0 <? len (fraud_frame d))%nat
          then (statistics_heading (len (fraud_frame d))
                ++ s1 ++ s2 ++ s3 ++ s4 ++ s5 ++ s6 ++ s7 ++ s8
                ++ time_note (fraud_frame d))%string
          else ""%string).
  split; [apply fraud_count_ok|]. split; [apply fraud_rate_ok|].
  unfold get_dataset_summary.
  rewrite fraud_count_ok. cbn [bind].
  rewrite fraud_rate_ok. cbn [bind].
  rewrite fraud_rows_ok. cbn [bind].
  destruct (Nat.ltb_spec 0 (len (fraud_frame d))) as [Hpos|Hz].
  - rewrite Hstats. cbn [bind].
    split; [reflexivity|]. split; [intros; lia|]. intros _. reflexivity.
  - split; [now rewrite append_nil_r|]. split; [reflexivity|intros; lia].
Qed.

(** The digest of a table with a fraud row, block by block. *)
Lemma get_dataset_summary_sections (d : DataFrame) :
  (0 < len (fraud_frame d))%nat ->
  exists count rate s1 s2 s3 s4 s5 s6 s7 s8,
    fraud_count d = Ok count
    /\ fraud_rate (len d) count = Ok rate
    /\ loyalty_section (fraud_frame d) = Ok s1
    /\ payment_section (fraud_frame d) = Ok s2
    /\ product_section (fraud_frame d) = Ok s3
    /\ store_section (fraud_frame d) = Ok s4
    /\ location_section (fraud_frame d) = Ok s5
    /\ device_section (fraud_frame d) = Ok s6
    /\ purchase_section (fraud_frame d) = Ok s7
    /\ age_section (fraud_frame d) = Ok s8
    /\ get_dataset_summary (Some d)
       = Ok (overview_block (len d) count rate ++ key_columns_block
             ++ statistics_heading (len (fraud_frame d))
             ++ s1 ++ s2 ++ s3 ++ s4 ++ s5 ++ s6 ++ s7 ++ s8
             ++ time_note (fraud_frame d))%string.
Proof.
  intros Hpos.
  destruct (get_dataset_summary_shape d)
    as (count & rate & stats & Hc & Hr & Hd & _ & Hstats).
  specialize (Hstats Hpos).
  destruct (fraud_statistics_shape (fraud_frame d))
    as (s1 & s2 & s3 & s4 & s5 & s6 & s7 & s8
        & H1 & H2 & H3 & H4 & H5 & H6 & H7 & H8 & Hshape).
  exists count, rate, s1, s2, s3, s4, s5, s6, s7, s8.
  repeat (split; [assumption|]).
  rewrite Hd. f_equal. rewrite append_assoc. do 2 f_equal.
  apply Ok_inj. now rewrite <- Hstats, <- Hshape.
Qed.

Ltac split_pairs H :=
  repeat (let H' := fresh H in
          apply pair_equal_spec in H; destruct H as [H H']).

(** Each of the six categorical blocks is [category_section] at the column,
    the cut and the texts of its entry of [category_blocks]. *)
Lemma category_blocks_spec (name title tail : string)
    (proj : TransactionRow -> Series.label) (top : option nat)
    (section : DataFrame -> result string) :
  In (name, proj, top, title, tail, section) category_blocks ->
  forall f, section f = category_section f name proj top title tail.
Proof.
  intros Hin f. unfold category_blocks in Hin.
  repeat (destruct Hin as [Hin|Hin];
          [split_pairs Hin; subst; reflexivity|]).
  contradiction.
Qed.

Lemma top10_blocks_spec (name title : string)
    (proj : TransactionRow -> Series.label)
    (section : DataFrame -> result string) :
  In (name, proj, title, section) top10_blocks ->
  forall f, section f = category_section f name proj (Some 10%nat) title "%)".
Proof.
  intros Hin f. unfold top10_blocks in Hin.
  repeat (destruct Hin as [Hin|Hin];
          [split_pairs Hin; subst; reflexivity|]).
  contradiction.
Qed.

(** No group of a breakdown counts more rows than the column has. *)
Lemma listed_groups_bounded (top : option nat) (col : list Series.label) :
  Forall (fun kc => (snd kc <= length col)%nat)
         (listed_groups top (Series.value_counts col)).
Proof.
  apply Forall_forall. intros [k c] Hin.
  apply listed_groups_incl, value_counts_count in Hin.
  destruct Hin as [-> _]. cbn [snd]. apply count_occ_bound.
Qed.

Lemma get_dataset_summary_total (table : option DataFrame) :
  exists digest, get_dataset_summary table = Ok digest.
Proof.
  destruct table as [d|].
  - destruct (get_dataset_summary_shape d) as (c & r & s & _ & _ & H & _).
    eauto.
  - now exists not_available.
Qed.

End DigestFacts.

Section ChatFacts.

Local Open Scope list_scope.

Lemma set_last_snoc (h : list Message) (x m : Message) :
  set_last (h ++ [x]) m = Ok (h ++ [m]).
Proof.
  induction h as [|y h IH]; [reflexivity|].
  cbn [app set_last]. rewrite IH.
  destruct (h ++ [x]) eqn:E; [|reflexivity].
  now apply app_eq_nil in E.
Qed.

(** One chat request when the dataset is available. *)
Lemma chat_route_available (chat : Service) (msg : string) (d : DataFrame)
    (h : list Message) (digest : string) :
  get_dataset_summary (Some d) = Ok digest ->
  let body := compose digest msg in
  let reply := answer chat (h ++ [HumanMessage body]) in
  chat_route chat msg (mkState (Some d) h)
  = (Ok reply, mkState (Some d) (h ++ [HumanMessage body; AIMessage reply])).
Proof.
  intros Hd body reply.
  unfold chat_route, append, replace_last, ask, read_history, write_history,
    read_df, lift, ret, seq.
  cbn [df conversation_history].
  rewrite Hd, set_last_snoc.
  cbn [df conversation_history].
  fold body. unfold reply, answer.
  destruct (chat (h ++ [HumanMessage body]));
    cbn [df conversation_history]; now rewrite <- app_assoc.
Qed.

(** One chat request when the dataset could not be loaded. *)
Lemma chat_route_unavailable (chat : Service) (msg : string)
    (h : list Message) :
  let reply := answer chat (h ++ [HumanMessage msg]) in
  chat_route chat msg (mkState None h)
  = (Ok reply, mkState None (h ++ [HumanMessage msg; AIMessage reply])).
Proof.
  intros reply.
  unfold chat_route, append, replace_last, ask, read_history, write_history,
    read_df, lift, ret, seq.
  cbn [df conversation_history].
  unfold reply, answer.
  destruct (chat (h ++ [HumanMessage msg]));
    cbn [df conversation_history]; now rewrite <- app_assoc.
Qed.

(** No request handler touches the table. *)
Lemma handle_keeps_df (st : State) (r : Request) : df (handle st r) = df st.
Proof.
  destruct st as [table h]. destruct r as [chat msg|]; [|reflexivity].
  cbn [handle df]. destruct table as [d|].
  - destruct (get_dataset_summary_total (Some d)) as (digest & Hd).
    now rewrite (chat_route_available chat msg d h digest Hd).
  - now rewrite chat_route_unavailable.
Qed.

Lemma serve_keeps_df (requests : list Request) (st : State) :
  df (serve requests st) = df st.
Proof.
  unfold serve. revert st.
  induction requests as [|r rest IH]; intros st; [reflexivity|].
  cbn [fold_left]. rewrite IH. apply handle_keeps_df.
Qed.

End ChatFacts.

(* ================================================================== *)
(** * The chat flow and the transcript *)
(* ================================================================== *)

Section ChatClaims.

Local Open Scope list_scope.

(** C1, as stated, fails: with the dataset unavailable, the user turn is
    not composed from the question and the "not available" message. For the
    question "hi" and an answering service that replies "ok", the transcript
    after the request holds the plain question, and no turn of it is the
    composition of "hi" with the message of the digest builder. *)
Lemma unavailable_turn_is_not_composed :
  get_dataset_summary None = Ok "Dataset not available."%string
  /\ snapshot (snd (chat_route (fun _ => inr "ok"%string) "hi" (startup None)))
     = [SystemMessage startup_instructions;
        HumanMessage "hi"; AIMessage "ok"]
  /\ ~ In (HumanMessage (compose "Dataset not available." "hi"))
          (snapshot
             (snd (chat_route (fun _ => inr "ok"%string) "hi" (startup None)))).
Proof.
  split; [reflexivity|]. split; [reflexivity|].
  cbv [startup]. rewrite chat_route_unavailable.
  cbn [snd snapshot conversation_history app answer In].
  intros [H|[H|[H|[]]]]; discriminate H.
Qed.

(** C1, amended: with the dataset unavailable the digest builder returns
    the literal "Dataset not available." message; the chat flow does not
    compose anything: it returns without raising, the user turn keeps the
    plain question as its body, and the transcript sent to the answering
    service (the history followed by that turn) is not empty. *)
Theorem unavailable_chat_keeps_plain_question (chat : Service)
    (msg : string) (h : list Message) :
  get_dataset_summary None = Ok "Dataset not available."%string
  /\ chat_route chat msg (mkState None h)
     = (Ok (answer chat (h ++ [HumanMessage msg])),
        mkState None
          (h ++ [HumanMessage msg;
                 AIMessage (answer chat (h ++ [HumanMessage msg]))]))
  /\ h ++ [HumanMessage msg] <> [].
Proof.
  split; [reflexivity|]. split; [apply chat_route_unavailable|].
  intros H. now apply app_eq_nil in H.
Qed.



(** C8: after [clear_chat] the transcript is exactly one system turn whose
    body is the standing instructions, the same text, byte for byte, as the
    body of the system turn the process starts with. *)
Theorem reset_then_snapshot (st : State) (table : option DataFrame) :
  snapshot (snd (clear_chat st)) = [SystemMessage reset_instructions]
  /\ fst (clear_chat st) = Ok cleared_reply
  /\ reset_instructions = startup_instructions
  /\ snapshot (startup table) = [SystemMessage startup_instructions]
  /\ snapshot (snd (clear_chat st)) = snapshot (startup table).
Proof. repeat split. Qed.

End ChatClaims.

(* ================================================================== *)
(** * The digest *)
(* ================================================================== *)

Section DigestClaims.

Local Open Scope list_scope.

Lemma sum_int_binary (rs : list TransactionRow) :
  Forall (fun r => Fraud_Flag r = 0%Z \/ Fraud_Flag r = 1%Z) rs ->
  Series.sum_int (map Fraud_Flag rs)
  = Z.of_nat (length (filter is_fraud rs)).
Proof.
  induction 1 as [|r rs Hr _ IH]; [reflexivity|].
  unfold Series.sum_int in *. cbn [map fold_right filter]. rewrite IH.
  destruct Hr as [H|H].
  - assert (Hf : is_fraud r = false) by (unfold is_fraud; now rewrite H).
    rewrite Hf, H. lia.
  - assert (Hf : is_fraud r = true) by (unfold is_fraud; now rewrite H).
    rewrite Hf, H. cbn [length]. lia.
Qed.

Lemma fraud_frame_le (d : DataFrame) : (len (fraud_frame d) <= len d)%nat.
Proof.
  unfold fraud_frame, len.
  destruct (has_column "Fraud_Flag" d); cbn [rows empty_frame length];
    [apply filter_length_le|lia].
Qed.

(** A table whose flags pass the test cell by cell has binary flags. *)
Lemma binary_flags_checked (d : DataFrame) :
  forallb (fun r => (Fraud_Flag r =? 0)%Z || (Fraud_Flag r =? 1)%Z) (rows d)
  = true ->
  binary_flags d.
Proof.
  intros Hall _. apply Forall_forall. intros r Hr.
  rewrite forallb_forall in Hall. specialize (Hall r Hr).
  apply orb_true_iff in Hall. destruct Hall as [H|H];
    apply Z.eqb_eq in H; auto.
Qed.

(** C3, as stated, fails: the count is the sum of the flag column, so on a
    table of one row whose flag is 2 the count is 2, the rate is 200 and the
    digest reports it, with a negative count and rate of legitimate rows. *)
Lemma rate_of_flag_two_exceeds_100 :
  fraud_count flag_two = Ok 2%Z
  /\ fraud_rate (len flag_two) 2 = Ok 200%Q
  /\ ~ (0 <= 200 <= 100)%Q
  /\ get_dataset_summary (Some flag_two)
     = Ok "
DATASET OVERVIEW:
- Total Transactions: 1
- Fraudulent Transactions: 2 (200.00%)
- Legitimate Transactions: -1 (-100.00%)

KEY COLUMNS AVAILABLE:
- Transaction_ID, Customer_ID, Transaction_Date, Transaction_Time
- Customer_Age, Customer_Loyalty_Tier, Location, Store_ID
- Product_SKU, Product_Category, Purchase_Amount
- Payment_Method, Device_Type, IP_Address, Fraud_Flag, Footfall_Count

"%string.
Proof.
  split; [reflexivity|]. split; [vm_compute; reflexivity|].
  split; [|vm_compute; reflexivity].
  intros [_ H]. vm_compute in H. exact (H eq_refl).
Qed.

(** C3, amended: on a table whose flags are all 0 or 1, the overview of
    the digest prints the count, which is the number of fraud rows (0 when
    the flag column does not exist), and the rate with two decimals; the
    rate is the double precision value of [count / total * 100], within
    10^-13 of the exact percentage of fraud rows; it is 0, without any
    division, when the table has no row, and it lies between 0 and 100. *)
Theorem fraud_rate_reported_and_bounded (d : DataFrame) :
  binary_flags d ->
  exists count rate rest,
    get_dataset_summary (Some d)
    = Ok (nl ++ "DATASET OVERVIEW:" ++ nl
          ++ "- Total Transactions: " ++ format_commas (len d) ++ nl
          ++ "- Fraudulent Transactions: " ++ str_int count
          ++ " (" ++ format_fixed 2 rate ++ "%)" ++ nl
          ++ "- Legitimate Transactions: "
          ++ str_int (Z.of_nat (len d) - count)
          ++ " (" ++ format_fixed 2 (Float64.sub 100 rate) ++ "%)" ++ nl
          ++ nl ++ rest)%string
    /\ fraud_count d = Ok count
    /\ fraud_rate (len d) count = Ok rate
    /\ fraud_rows d = Ok (fraud_frame d)
    /\ count = Z.of_nat (len (fraud_frame d))
    /\ (has_column "Fraud_Flag" d = false -> count = 0%Z)
    /\ ((0 < len d)%nat ->
        rate = Float64.mul
                 (Float64.div (Float64.of_int count)
                              (Float64.of_int (Z.of_nat (len d))))
                 100)
    /\ (len d = 0%nat -> rate = 0%Q)
    /\ ((0 < len d)%nat ->
        (share (len d) (len (fraud_frame d)) - (1 # 10000000000000) <= rate
         <= share (len d) (len (fraud_frame d)) + (1 # 10000000000000))%Q)
    /\ (0 <= rate <= 100)%Q.
Proof.
  intros Hbin.
  destruct (get_dataset_summary_shape d)
    as (count & rate & stats & Hc & Hr & Hd & _).
  exists count, rate, (key_columns_block ++ stats)%string.
  split.
  { rewrite Hd. f_equal. unfold overview_block.
    rewrite !append_assoc. reflexivity. }
  split; [exact Hc|]. split; [exact Hr|].
  split; [apply fraud_rows_ok|].
  rewrite fraud_count_ok in Hc. apply Ok_inj in Hc. subst count.
  rewrite fraud_rate_ok in Hr. apply Ok_inj in Hr. subst rate.
  assert (Hcount : (if has_column "Fraud_Flag" d
                    then Series.sum_int (map Fraud_Flag (rows d)) else 0%Z)
                   = Z.of_nat (len (fraud_frame d))).
  { unfold fraud_frame, binary_flags in *.
    destruct (has_column "Fraud_Flag" d); [|reflexivity].
    now rewrite (sum_int_binary _ (Hbin eq_refl)). }
  split; [exact Hcount|].
  split; [intros Hno; now rewrite Hno|].
  split; [intros Hpos; now rewrite (proj2 (Nat.ltb_lt _ _) Hpos)|].
  split; [intros Hz; now rewrite Hz|].
  rewrite Hcount.
  pose proof (fraud_frame_le d) as Hle.
  destruct (Nat.ltb_spec 0 (len d)) as [Hpos|Hz].
  - split.
    + intros _.
      pose proof (float_share_close (len d) (len (fraud_frame d)) Hle Hpos).
      lra.
    + apply float_share_bounds; lia.
  - split; [intros Hpos; lia|]. split; [apply Qle_refl|discriminate].
Qed.

Lemma fraud_rate_reported_and_bounded_witness :
  binary_flags twenty_three_of_160
  /\ exists count rate rest,
       get_dataset_summary (Some twenty_three_of_160)
       = Ok (nl ++ "DATASET OVERVIEW:" ++ nl
             ++ "- Total Transactions: "
             ++ format_commas (len twenty_three_of_160) ++ nl
             ++ "- Fraudulent Transactions: " ++ str_int count
             ++ " (" ++ format_fixed 2 rate ++ "%)" ++ nl
             ++ "- Legitimate Transactions: "
             ++ str_int (Z.of_nat (len twenty_three_of_160) - count)
             ++ " (" ++ format_fixed 2 (Float64.sub 100 rate) ++ "%)" ++ nl
             ++ nl ++ rest)%string
       /\ count = 23%Z
       /\ (0 <= rate <= 100)%Q.
Proof.
  assert (Hbin : binary_flags twenty_three_of_160)
    by (apply binary_flags_checked; reflexivity).
  split; [exact Hbin|].
  destruct (fraud_rate_reported_and_bounded twenty_three_of_160 Hbin)
    as (count & rate & rest & Hd & _ & _ & _ & Hn & _ & _ & _ & _ & Hb).
  exists count, rate, rest.
  split; [exact Hd|]. split; [exact Hn|exact Hb].
Defined.

(** C9: when no row is a fraud row, the digest is the header alone, the
    overview followed by the key-columns block, with nothing after it; the
    builder returns normally. *)
Theorem empty_fraud_subset_header_only (d : DataFrame) :
  rows (fraud_frame d) = [] ->
  exists count rate,
    fraud_rows d = Ok (fraud_frame d)
    /\ fraud_count d = Ok count
    /\ fraud_rate (len d) count = Ok rate
    /\ get_dataset_summary (Some d)
       = Ok (overview_block (len d) count rate ++ key_columns_block)%string.
Proof.
  intros Hempty.
  destruct (get_dataset_summary_shape d)
    as (count & rate & stats & Hc & Hr & Hd & Hnone & _).
  exists count, rate. split; [apply fraud_rows_ok|].
  split; [exact Hc|]. split; [exact Hr|].
  rewrite Hd, Hnone, append_nil_r; [reflexivity|].
  unfold len. now rewrite Hempty.
Qed.

Lemma empty_fraud_subset_header_only_witness :
  rows (fraud_frame no_fraud) = []
  /\ exists count rate,
       fraud_rows no_fraud = Ok (fraud_frame no_fraud)
       /\ fraud_count no_fraud = Ok count
       /\ fraud_rate (len no_fraud) count = Ok rate
       /\ get_dataset_summary (Some no_fraud)
          = Ok (overview_block (len no_fraud) count rate
                ++ key_columns_block)%string.
Proof.
  split; [reflexivity|].
  apply (empty_fraud_subset_header_only no_fraud). reflexivity.
Defined.

(** C10: the key-columns block of the digest is one constant, whatever the
    columns of the table: the title and four lines that list sixteen names,
    [Product_SKU] and [IP_Address] among them. The presence of a column is
    looked at by the blocks of the statistics only, each of which adds
    nothing when its column does not exist. *)
Theorem key_columns_block_is_constant (d f : DataFrame) (name title tail : string)
    (proj : TransactionRow -> Series.label) (top : option nat) :
  (exists count rate stats,
     get_dataset_summary (Some d)
     = Ok ((overview_block (len d) count rate ++ key_columns_block)
           ++ stats)%string)
  /\ key_columns_block
     = ("KEY COLUMNS AVAILABLE:" ++ nl
        ++ String.concat ""
             (map (fun line => "- " ++ String.concat ", " line ++ nl)
                key_column_lines)
        ++ nl)%string
  /\ length (concat key_column_lines) = 16%nat
  /\ In "Product_SKU"%string (concat key_column_lines)
  /\ In "IP_Address"%string (concat key_column_lines)
  /\ (exists text,
        category_section f name proj top title tail
        = Ok (if has_column name f then text else ""%string))
  /\ (exists text,
        purchase_section f
        = Ok (if has_column "Purchase_Amount" f then text else ""%string))
  /\ (exists text,
        age_section f
        = Ok (if has_column "Customer_Age" f then text else ""%string))
  /\ (exists text,
        time_note f
        = if has_column "Transaction_Time" f then text else ""%string).
Proof.
  split.
  { destruct (get_dataset_summary_shape d) as (c & r & s & _ & _ & H & _).
    now exists c, r, s. }
  split; [reflexivity|]. split; [reflexivity|].
  split; [cbn; tauto|]. split; [cbn; tauto|].
  split; [rewrite category_section_ok; eauto|].
  split; [|split].
  - unfold purchase_section, column.
    destruct (has_column "Purchase_Amount" f); cbn [bind]; eauto.
  - unfold age_section, column.
    destruct (has_column "Customer_Age" f); cbn [bind]; eauto.
  - unfold time_note. eauto.
Qed.

(** C4, as stated, fails, in two ways. Seven fraud rows with seven
    payment methods give seven groups of one row, each printed as 14.29%,
    and the percentages add up to 100.03, beyond 100 + 0.02. Two fraud rows,
    the payment method of one of them blank, give one group printed as
    50.0%: the blank cell is in no group, and the percentages of this full
    breakdown add up to 50, below 100 - 0.02. *)
Lemma breakdown_totals_miss_tolerance :
  (payment_section (fraud_frame seven_methods)
   = Ok "
Payment Methods in Fraud:
  - Card: 1 transactions (14.29%)
  - Cash: 1 transactions (14.29%)
  - Wallet: 1 transactions (14.29%)
  - Voucher: 1 transactions (14.29%)
  - Crypto: 1 transactions (14.29%)
  - Transfer: 1 transactions (14.29%)
  - Cheque: 1 transactions (14.29%)
"%string
   /\ exists es,
        category_entries (fraud_frame seven_methods) "Payment_Method"
          Payment_Method None = Ok es
        /\ length es = 7%nat
        /\ (shown_total es == 10003 # 100)%Q
        /\ ~ (shown_total es <= 100 + (2 # 100))%Q)
  /\ (payment_section (fraud_frame blank_method)
      = Ok "
Payment Methods in Fraud:
  - Card: 1 transactions (50.0%)
"%string
      /\ len (fraud_frame blank_method) = 2%nat
      /\ exists es,
           category_entries (fraud_frame blank_method) "Payment_Method"
             Payment_Method None = Ok es
           /\ (shown_total es == 50)%Q
           /\ ~ (100 - (2 # 100) <= shown_total es)%Q).
Proof.
  split.
  - split; [vm_compute; reflexivity|].
    eexists. split; [vm_compute; reflexivity|].
    split; [reflexivity|]. split; [vm_compute; reflexivity|].
    intros H. vm_compute in H. exact (H eq_refl).
  - split; [vm_compute; reflexivity|]. split; [reflexivity|].
    eexists. split; [vm_compute; reflexivity|].
    split; [vm_compute; reflexivity|].
    intros H. vm_compute in H. exact (H eq_refl).
Qed.

(** C4, amended: for every table with a fraud row, each of the six
    categorical blocks of the digest is its title followed by one line for
    each listed group; the count of a line is the number of fraud rows with
    that label, and its percentage is the double precision value of
    [count / len(fraud rows) * 100], the size of the fraud subset and not of
    the table, rounded to two decimals. The percentages shown in a block,
    cut to ten groups or not, add up to at most 100 plus half a hundredth
    for each listed group; in a block that is not cut, over a column
    without blank cells, they add up to at least 100 minus half a hundredth
    for each listed group. This holds for fewer than 2^32 fraud rows;
    whatever the number of rows, it holds with 10^-13 more for each listed
    group, for the rounding of the double precision operations. *)
Theorem category_percentages_relative_to_fraud_subset (d : DataFrame)
    (name title tail : string) (proj : TransactionRow -> Series.label)
    (top : option nat) (section : DataFrame -> result string) :
  In (name, proj, top, title, tail, section) category_blocks ->
  has_column name (fraud_frame d) = true ->
  (0 < len (fraud_frame d))%nat ->
  exists count rate s1 s2 s3 s4 s5 s6 s7 s8 es,
    fraud_rows d = Ok (fraud_frame d)
    /\ loyalty_section (fraud_frame d) = Ok s1
    /\ payment_section (fraud_frame d) = Ok s2
    /\ product_section (fraud_frame d) = Ok s3
    /\ store_section (fraud_frame d) = Ok s4
    /\ location_section (fraud_frame d) = Ok s5
    /\ device_section (fraud_frame d) = Ok s6
    /\ purchase_section (fraud_frame d) = Ok s7
    /\ age_section (fraud_frame d) = Ok s8
    /\ get_dataset_summary (Some d)
       = Ok (overview_block (len d) count rate ++ key_columns_block
             ++ statistics_heading (len (fraud_frame d))
             ++ s1 ++ s2 ++ s3 ++ s4 ++ s5 ++ s6 ++ s7 ++ s8
             ++ time_note (fraud_frame d))%string
    /\ section (fraud_frame d)
       = Ok (nl ++ title ++ nl
             ++ String.concat ""
                  (map (fun e =>
                          "  - " ++ entry_label e ++ ": "
                          ++ str_nat (entry_count e) ++ " transactions ("
                          ++ str_float2 (entry_pct e) ++ tail ++ nl)
                       es))%string
    /\ (forall e, In e es ->
          entry_count e
          = occurrences (map proj (rows (fraud_frame d))) (entry_label e)
          /\ entry_pct e
             = Series.round2
                 (Float64.mul
                    (Float64.div
                       (Float64.of_int (Z.of_nat (entry_count e)))
                       (Float64.of_int (Z.of_nat (len (fraud_frame d)))))
                    100))
    /\ (shown_total es
        <= 100 + inject_Z (Z.of_nat (length es)) * slack_per_group)%Q
    /\ (top = None -> ~ In None (map proj (rows (fraud_frame d))) ->
        (100 - inject_Z (Z.of_nat (length es)) * slack_per_group
         <= shown_total es)%Q)
    /\ ((Z.of_nat (len (fraud_frame d)) < 2 ^ 32)%Z ->
        (shown_total es
         <= 100 + inject_Z (Z.of_nat (length es)) * (1 # 200))%Q
        /\ (top = None -> ~ In None (map proj (rows (fraud_frame d))) ->
            (100 - inject_Z (Z.of_nat (length es)) * (1 # 200)
             <= shown_total es)%Q)).
Proof.
  intros Hblock Hcol Hpos.
  destruct (get_dataset_summary_sections d Hpos)
    as (count & rate & s1 & s2 & s3 & s4 & s5 & s6 & s7 & s8
        & _ & _ & H1 & H2 & H3 & H4 & H5 & H6 & H7 & H8 & Hd).
  set (f := fraud_frame d) in *.
  set (col := map proj (rows f)).
  set (l := listed_groups top (Series.value_counts col)).
  exists count, rate, s1, s2, s3, s4, s5, s6, s7, s8,
    (map (entry_of (len f)) l).
  split; [apply fraud_rows_ok|].
  do 8 (split; [assumption|]). split; [exact Hd|].
  split.
  { rewrite (category_blocks_spec _ _ _ _ _ _ Hblock f).
    rewrite category_section_ok, Hcol. reflexivity. }
  assert (Hlen : length col = len f) by apply length_map.
  assert (Hall : Forall (fun kc => (snd kc <= len f)%nat) l).
  { rewrite <- Hlen. apply listed_groups_bounded. }
  assert (Hsum : (list_sum (map snd l) <= len f)%nat).
  { unfold l. etransitivity; [apply listed_groups_sum_le|].
    rewrite value_counts_total, <- Hlen. apply labels_length_le. }
  pose proof (share_le_100 (len f) _ Hpos Hsum) as Hle.
  split; [|rewrite length_map].
  - intros e He. apply in_map_iff in He. destruct He as ([k c] & <- & Hkc).
    apply listed_groups_incl, value_counts_count in Hkc.
    destruct Hkc as [-> _]. split; reflexivity.
  - pose proof (shown_total_close (len f) l Hpos Hall) as Hclose.
    cbv zeta in Hclose. destruct Hclose as [Hlo Hhi].
    split; [lra|]. split.
    + intros Htop Hfull. subst top. unfold l in *. cbn [listed_groups] in *.
      rewrite value_counts_total, (labels_length_full col Hfull), Hlen in Hlo.
      pose proof (share_all (len f) Hpos). lra.
    + intros Hsmall.
      pose proof (shown_total_tight (len f) l Hpos Hsmall Hall) as Htight.
      cbv zeta in Htight. destruct Htight as [Hlo' Hhi'].
      split; [lra|].
      intros Htop Hfull. subst top. unfold l in *. cbn [listed_groups] in *.
      rewrite value_counts_total, (labels_length_full col Hfull), Hlen in Hlo'.
      pose proof (share_all (len f) Hpos). lra.
Qed.

Lemma category_percentages_relative_to_fraud_subset_witness :
  In ("Payment_Method"%string, Payment_Method, @None nat,
      "Payment Methods in Fraud:"%string, "%)"%string, payment_section)
     category_blocks
  /\ has_column "Payment_Method" (fraud_frame mixed_flags) = true
  /\ (0 < len (fraud_frame mixed_flags))%nat
  /\ exists es,
       payment_section (fraud_frame mixed_flags)
       = Ok (nl ++ "Payment Methods in Fraud:" ++ nl
             ++ String.concat ""
                  (map (fun e =>
                          "  - " ++ entry_label e ++ ": "
                          ++ str_nat (entry_count e) ++ " transactions ("
                          ++ str_float2 (entry_pct e) ++ "%)" ++ nl)
                       es))%string
       /\ (shown_total es
           <= 100 + inject_Z (Z.of_nat (length es)) * (1 # 200))%Q
       /\ (100 - inject_Z (Z.of_nat (length es)) * (1 # 200)
           <= shown_total es)%Q.
Proof.
  assert (Hblock : In ("Payment_Method"%string, Payment_Method, @None nat,
                       "Payment Methods in Fraud:"%string, "%)"%string,
                       payment_section) category_blocks)
    by (right; left; reflexivity).
  assert (Hcol : has_column "Payment_Method" (fraud_frame mixed_flags) = true)
    by reflexivity.
  assert (Hpos : (0 < len (fraud_frame mixed_flags))%nat)
    by (vm_compute; lia).
  split; [exact Hblock|]. split; [exact Hcol|]. split; [exact Hpos|].
  destruct (category_percentages_relative_to_fraud_subset
              mixed_flags _ _ _ _ _ _ Hblock Hcol Hpos)
    as (count & rate & s1 & s2 & s3 & s4 & s5 & s6 & s7 & s8 & es
        & _ & _ & _ & _ & _ & _ & _ & _ & _ & _ & Hsec & _ & _ & _ & Htight).
  exists es. split; [exact Hsec|].
  assert (Hsmall : (Z.of_nat (len (fraud_frame mixed_flags)) < 2 ^ 32)%Z)
    by (vm_compute; reflexivity).
  destruct (Htight Hsmall) as [Hhi Hlo].
  split; [exact Hhi|]. apply Hlo; [reflexivity|].
  vm_compute. intros [H|[H|[]]]; discriminate H.
Defined.

Lemma map_fst_entry_of (n : nat) (l : Series.indexed nat) :
  map fst (map (entry_of n) l) = l.
Proof.
  induction l as [|[k c] l IH]; [reflexivity|]. cbn. now rewrite IH.
Qed.

(** The ten first groups of [value_counts] are the top ten of the column. *)
Lemma top10_listing_ok (col : list Series.label) :
  (10 < length (distinct_labels col))%nat ->
  top10_listing col
    (map (entry_of (length col)) (firstn 10 (Series.value_counts col))).
Proof.
  intros Hmany.
  pose proof (value_counts_sorted col) as Hsorted.
  pose proof (value_counts_distinct col) as Hdist.
  rewrite <- (firstn_skipn 10 (Series.value_counts col)) in Hsorted.
  set (vc := Series.value_counts col) in *.
  assert (Hin : forall g, In g (firstn 10 vc) -> In g vc).
  { intros g Hg. rewrite <- (firstn_skipn 10 vc). apply in_or_app. now left. }
  unfold top10_listing. rewrite map_fst_entry_of.
  split; [|split; [|split]].
  - rewrite length_map, length_firstn. lia.
  - intros e He. apply in_map_iff in He. destruct He as ([k c] & <- & Hkc).
    apply Hin, value_counts_count in Hkc. destruct Hkc as [-> Hk].
    repeat split; assumption.
  - apply (StronglySorted_app_left _ _ _ Hsorted).
  - intros e k He Hk Hout.
    apply in_map_iff in He. destruct He as (g & <- & Hg).
    assert (Hfst : fst (entry_of (length col) g) = g) by now destruct g.
    rewrite Hfst.
    apply (StronglySorted_app_cross _ _ _ Hsorted); [assumption|].
    pose proof (value_counts_covers col k Hk) as Hgrp. fold vc in Hgrp.
    rewrite <- (firstn_skipn 10 vc) in Hgrp.
    apply in_app_or in Hgrp. destruct Hgrp as [Hfirst|Hrest]; [|assumption].
    exfalso. apply Hout. apply in_map_iff.
    exists (entry_of (length col) (k, occurrences col k)).
    split; [reflexivity|]. now apply in_map.
Qed.

Lemma distinct_labels_rows (f : DataFrame)
    (proj : TransactionRow -> Series.label) :
  (0 < length (distinct_labels (map proj (rows f))))%nat -> (0 < len f)%nat.
Proof.
  unfold len. destruct (rows f); cbn; lia.
Qed.

(** C6: for the store and the location blocks, when the fraud rows hold
    more than ten distinct values, the block of the digest is its title
    followed by exactly ten lines, one for each of the ten first groups in
    the order that puts a larger count first and, between equal counts,
    the value that occurs first in the fraud rows; every group left out
    ranks after each group listed. *)
Theorem top10_groups_listed (d : DataFrame) (name title : string)
    (proj : TransactionRow -> Series.label)
    (section : DataFrame -> result string) :
  In (name, proj, title, section) top10_blocks ->
  has_column name (fraud_frame d) = true ->
  (10 < length (distinct_labels (map proj (rows (fraud_frame d)))))%nat ->
  exists count rate s1 s2 s3 s4 s5 s6 s7 s8 es,
    fraud_rows d = Ok (fraud_frame d)
    /\ loyalty_section (fraud_frame d) = Ok s1
    /\ payment_section (fraud_frame d) = Ok s2
    /\ product_section (fraud_frame d) = Ok s3
    /\ store_section (fraud_frame d) = Ok s4
    /\ location_section (fraud_frame d) = Ok s5
    /\ device_section (fraud_frame d) = Ok s6
    /\ purchase_section (fraud_frame d) = Ok s7
    /\ age_section (fraud_frame d) = Ok s8
    /\ get_dataset_summary (Some d)
       = Ok (overview_block (len d) count rate ++ key_columns_block
             ++ statistics_heading (len (fraud_frame d))
             ++ s1 ++ s2 ++ s3 ++ s4 ++ s5 ++ s6 ++ s7 ++ s8
             ++ time_note (fraud_frame d))%string
    /\ section (fraud_frame d)
       = Ok (nl ++ title ++ nl
             ++ String.concat ""
                  (map (fun e =>
                          "  - " ++ entry_label e ++ ": "
                          ++ str_nat (entry_count e) ++ " transactions ("
                          ++ str_float2 (entry_pct e) ++ "%)" ++ nl)
                       es))%string
    /\ length es = 10%nat
    /\ top10_listing (map proj (rows (fraud_frame d))) es.
Proof.
  intros Hwhich Hcol Hmany.
  assert (Hpos : (0 < len (fraud_frame d))%nat).
  { apply (distinct_labels_rows (fraud_frame d) proj). lia. }
  destruct (get_dataset_summary_sections d Hpos)
    as (count & rate & s1 & s2 & s3 & s4 & s5 & s6 & s7 & s8
        & _ & _ & H1 & H2 & H3 & H4 & H5 & H6 & H7 & H8 & Hd).
  set (f := fraud_frame d) in *.
  set (col := map proj (rows f)) in *.
  assert (Hlen : length col = len f) by apply length_map.
  exists count, rate, s1, s2, s3, s4, s5, s6, s7, s8,
    (map (entry_of (len f)) (firstn 10 (Series.value_counts col))).
  split; [apply fraud_rows_ok|].
  do 8 (split; [assumption|]). split; [exact Hd|].
  split.
  { rewrite (top10_blocks_spec _ _ _ _ Hwhich f).
    rewrite category_section_ok, Hcol. reflexivity. }
  rewrite <- Hlen.
  pose proof (top10_listing_ok col Hmany) as Htop.
  split; [apply Htop|exact Htop].
Qed.

Lemma top10_groups_listed_witness :
  In ("Store_ID"%string, Store_ID, "Stores in Fraud (Top 10):"%string,
      store_section) top10_blocks
  /\ has_column "Store_ID" (fraud_frame fifteen_stores) = true
  /\ (10 < length (distinct_labels
                     (map Store_ID (rows (fraud_frame fifteen_stores)))))%nat
  /\ exists es,
       store_section (fraud_frame fifteen_stores)
       = Ok (nl ++ "Stores in Fraud (Top 10):" ++ nl
             ++ String.concat ""
                  (map (fun e =>
                          "  - " ++ entry_label e ++ ": "
                          ++ str_nat (entry_count e) ++ " transactions ("
                          ++ str_float2 (entry_pct e) ++ "%)" ++ nl)
                       es))%string
       /\ length es = 10%nat
       /\ top10_listing (map Store_ID (rows (fraud_frame fifteen_stores))) es.
Proof.
  assert (Hwhich : In ("Store_ID"%string, Store_ID,
                       "Stores in Fraud (Top 10):"%string, store_section)
                      top10_blocks)
    by (left; reflexivity).
  assert (Hcol : has_column "Store_ID" (fraud_frame fifteen_stores) = true)
    by reflexivity.
  assert (Hmany : (10 < length (distinct_labels
                     (map Store_ID (rows (fraud_frame fifteen_stores)))))%nat)
    by (vm_compute; lia).
  split; [exact Hwhich|]. split; [exact Hcol|]. split; [exact Hmany|].
  destruct (top10_groups_listed fifteen_stores _ _ _ _ Hwhich Hcol Hmany)
    as (count & rate & s1 & s2 & s3 & s4 & s5 & s6 & s7 & s8 & es
        & _ & _ & _ & _ & _ & _ & _ & _ & _ & _ & Hsec & Hten & Htop).
  exists es. split; [exact Hsec|]. split; [exact Hten|exact Htop].
Defined.

End DigestClaims.

(* ================================================================== *)
(** * Worked examples *)
(* ================================================================== *)

Section Examples.

Example format_commas_millions :
  format_commas (Z.to_nat 1234567) = "1,234,567"
  /\ format_commas 999 = "999" /\ format_commas 1000 = "1,000".
Proof. repeat split; vm_compute; reflexivity. Qed.

Example format_fixed_samples :
  format_fixed 2 (1 # 7) = "0.14"
  /\ format_fixed 2 (-1 # 1000) = "-0.00"
  /\ format_fixed 1 (-344 # 10) = "-34.4"
  /\ format_fixed 0 (25 # 10) = "2"
  /\ format_fixed 0 (35 # 10) = "4"
  /\ format_fixed_nan 2 None = "nan".
Proof. repeat split; vm_compute; reflexivity. Qed.

Example str_float2_samples :
  str_float2 (50 # 1) = "50.0"
  /\ str_float2 (1429 # 100) = "14.29"
  /\ str_float2 (143 # 10) = "14.3"
  /\ str_float2 0 = "0.0".
Proof. repeat split; vm_compute; reflexivity. Qed.

(** Ties keep the order of first occurrence; blank cells are not counted. *)
Example value_counts_ties :
  Series.value_counts
    [Some "a"; Some "b"; None; Some "c"; Some "b"; Some "c"; Some "d"]
  = [("b", 2%nat); ("c", 2%nat); ("a", 1%nat); ("d", 1%nat)].
Proof. vm_compute. reflexivity. Qed.

(** The digest of the scenario of the specification. *)
Example spec_scenario_digest :
  get_dataset_summary (Some spec_scenario)
  = Ok "
DATASET OVERVIEW:
- Total Transactions: 100
- Fraudulent Transactions: 10 (10.00%)
- Legitimate Transactions: 90 (90.00%)

KEY COLUMNS AVAILABLE:
- Transaction_ID, Customer_ID, Transaction_Date, Transaction_Time
- Customer_Age, Customer_Loyalty_Tier, Location, Store_ID
- Product_SKU, Product_Category, Purchase_Amount
- Payment_Method, Device_Type, IP_Address, Fraud_Flag, Footfall_Count



COMPREHENSIVE FRAUD STATISTICS (Based on ALL 10 fraudulent transactions):

Customer Loyalty Tier Distribution in Fraud:
  - Gold: 10 transactions (100.0% of all fraud)

Payment Methods in Fraud:
  - Card: 5 transactions (50.0%)
  - Cash: 5 transactions (50.0%)

Product Categories in Fraud:
  - Skincare: 10 transactions (100.0%)

Stores in Fraud (Top 10):
  - S01: 10 transactions (100.0%)

Locations in Fraud (Top 10):
  - Paris: 10 transactions (100.0%)

Device Types in Fraud:
  - Mobile: 10 transactions (100.0%)

Purchase Amount Statistics for Fraud:
  - Average: $120.00
  - Median: $120.00
  - Min: $120.00
  - Max: $120.00
  - Total Fraud Amount: $1200.00

Customer Age Statistics for Fraud:
  - Average Age: 34.0 years
  - Min Age: 34 years
  - Max Age: 34 years

Note: Transaction times available for time-based pattern analysis
".
Proof. vm_compute. reflexivity. Qed.

(** Double precision: one tenth is not a double, the sum of a large and a
    small amount loses the small one, and twenty-three out of a hundred and
    sixty is just below 14.375. *)
Example float_samples :
  Float64.rnd (1 # 10) = (3602879701896397 # 36028797018963968)%Q
  /\ format_fixed 2
       (Series.sum [Some (10000000000000000 # 1)%Q; Some (1 # 2)%Q;
                    Some (-10000000000000000 # 1)%Q]) = "0.00"
  /\ format_fixed 2 (float_share 160 23) = "14.37"
  /\ format_fixed 2 (Float64.sub 100 (float_share 160 23)) = "85.62"
  /\ str_float2 (pct_of 160 23) = "14.37"
  /\ str_float2 (pct_of 7 1) = "14.29"
  /\ str_float2 (pct_of 3 1) = "33.33"
  /\ str_float2 (pct_of 2 1) = "50.0".
Proof. repeat split; vm_compute; reflexivity. Qed.

(** Twenty-three fraud rows out of a hundred and sixty: the exact rate
    14.375 is printed as 14.37, as double precision arithmetic gives it. *)
Example twenty_three_of_160_digest :
  get_dataset_summary (Some twenty_three_of_160)
  = Ok "
DATASET OVERVIEW:
- Total Transactions: 160
- Fraudulent Transactions: 23 (14.37%)
- Legitimate Transactions: 137 (85.62%)

KEY COLUMNS AVAILABLE:
- Transaction_ID, Customer_ID, Transaction_Date, Transaction_Time
- Customer_Age, Customer_Loyalty_Tier, Location, Store_ID
- Product_SKU, Product_Category, Purchase_Amount
- Payment_Method, Device_Type, IP_Address, Fraud_Flag, Footfall_Count



COMPREHENSIVE FRAUD STATISTICS (Based on ALL 23 fraudulent transactions):

Customer Loyalty Tier Distribution in Fraud:
  - Gold: 23 transactions (100.0% of all fraud)

Payment Methods in Fraud:
  - Card: 18 transactions (78.26%)
  - Cash: 5 transactions (21.74%)

Product Categories in Fraud:
  - Skincare: 23 transactions (100.0%)

Stores in Fraud (Top 10):
  - S01: 23 transactions (100.0%)

Locations in Fraud (Top 10):
  - Paris: 23 transactions (100.0%)

Device Types in Fraud:
  - Mobile: 23 transactions (100.0%)

Purchase Amount Statistics for Fraud:
  - Average: $120.00
  - Median: $120.00
  - Min: $120.00
  - Max: $120.00
  - Total Fraud Amount: $2760.00

Customer Age Statistics for Fraud:
  - Average Age: 34.0 years
  - Min Age: 34 years
  - Max Age: 34 years

Note: Transaction times available for time-based pattern analysis
".
Proof. vm_compute. reflexivity. Qed.

(** Fifteen stores among the fraud rows: ten are listed, the largest
    counts first, equal counts in the order in which the stores first occur. *)
Example fifteen_stores_block :
  store_section (fraud_frame fifteen_stores)
  = Ok "
Stores in Fraud (Top 10):
  - S05: 3 transactions (15.79%)
  - S03: 2 transactions (10.53%)
  - S15: 2 transactions (10.53%)
  - S01: 1 transactions (5.26%)
  - S02: 1 transactions (5.26%)
  - S04: 1 transactions (5.26%)
  - S06: 1 transactions (5.26%)
  - S07: 1 transactions (5.26%)
  - S08: 1 transactions (5.26%)
  - S09: 1 transactions (5.26%)
".
Proof. vm_compute. reflexivity. Qed.

(** A table without any column and a table without rows. *)
Example degenerate_tables :
  get_dataset_summary (Some (mkFrame [] [sample_row 1 "Card" "S01"]))
  = Ok (overview_block 1 0 0 ++ key_columns_block)
  /\ get_dataset_summary (Some (mkFrame all_columns []))
     = Ok (overview_block 0 0 0 ++ key_columns_block).
Proof. split; vm_compute; reflexivity. Qed.

(** A failing answering service still yields an assistant turn. *)
Example failing_service :
  chat_route (fun _ => inl "quota exceeded") "hi" (startup None)
  = (Ok "⚠️ Error: quota exceeded",
     mkState None
       [SystemMessage startup_instructions; HumanMessage "hi";
        AIMessage "⚠️ Error: quota exceeded"]).
Proof. vm_compute. reflexivity. Qed.

End Examples.

(* ================================================================== *)
(** * Further properties of the transcript *)
(* ================================================================== *)

Section TranscriptProperties.

Local Open Scope list_scope.

Lemma pair_induction {A : Type} (P : list A -> Prop) :
  P [] -> (forall x, P [x]) -> (forall x y l, P l -> P (x :: y :: l)) ->
  forall l, P l.
Proof.
  intros H0 H1 H2. fix IH 1.
  intros [|x [|y l]]; [exact H0|exact (H1 x)|exact (H2 x y l (IH l))].
Qed.

Lemma alternates_app (a b : list Message) :
  alternates a = true -> alternates (a ++ b) = alternates b.
Proof.
  induction a as [|x|x y a IH] using pair_induction; intros Ha.
  - reflexivity.
  - destruct x; discriminate Ha.
  - destruct x; try discriminate Ha. destruct y; try discriminate Ha.
    cbn [app alternates] in *. now apply IH.
Qed.

Lemma serve_snoc (requests : list Request) (r : Request) (st : State) :
  serve (requests ++ [r]) st = handle (serve requests st) r.
Proof. unfold serve. now rewrite fold_left_app. Qed.

Lemma questions_snoc_chat (requests : list Request) (chat : Service)
    (msg : string) :
  questions_since_clear (requests ++ [PostChat chat msg])
  = questions_since_clear requests ++ [msg].
Proof. unfold questions_since_clear. now rewrite fold_left_app. Qed.

Lemma questions_snoc_clear (requests : list Request) :
  questions_since_clear (requests ++ [PostClear]) = [].
Proof. unfold questions_since_clear. now rewrite fold_left_app. Qed.

Lemma append_cancel_l (a x y : string) :
  (a ++ x)%string = (a ++ y)%string -> x = y.
Proof.
  induction a as [|c a IH]; cbn; intros H; [exact H|].
  injection H as H. now apply IH.
Qed.

Lemma append_cancel_r (x y s : string) :
  (x ++ s)%string = (y ++ s)%string -> x = y.
Proof.
  revert y. induction x as [|c x IH]; intros [|c' y] H; cbn in H.
  - reflexivity.
  - apply (f_equal String.length) in H. cbn in H.
    rewrite append_length in H. lia.
  - apply (f_equal String.length) in H. cbn in H.
    rewrite append_length in H. lia.
  - injection H as -> H. f_equal. now apply IH.
Qed.

(** What one chat request does to any state. *)
Lemma chat_route_turn (chat : Service) (msg : string) (st : State) :
  let sent := conversation_history st
              ++ [HumanMessage (turn_body (df st) msg)] in
  chat_route chat msg st
  = (Ok (answer chat sent),
     mkState (df st) (sent ++ [AIMessage (answer chat sent)])).
Proof.
  destruct st as [[d|] h]; cbn [df conversation_history].
  - destruct (get_dataset_summary_total (Some d)) as (digest & Hd).
    rewrite (chat_route_available chat msg d h digest Hd).
    unfold turn_body. rewrite Hd. now rewrite <- app_assoc.
  - rewrite chat_route_unavailable. unfold turn_body.
    now rewrite <- app_assoc.
Qed.

Lemma handle_chat (chat : Service) (msg : string) (st : State) :
  conversation_history (handle st (PostChat chat msg))
  = conversation_history st
    ++ [HumanMessage (turn_body (df st) msg);
        AIMessage (answer chat
                     (conversation_history st
                      ++ [HumanMessage (turn_body (df st) msg)]))].
Proof.
  cbn [handle]. rewrite chat_route_turn. cbn [snd conversation_history].
  now rewrite <- app_assoc.
Qed.

Lemma served_history_well_formed (requests : list Request)
    (table : option DataFrame) :
  well_formed (conversation_history (serve requests (startup table))) = true.
Proof.
  induction requests as [|r requests IH] using rev_ind; [reflexivity|].
  rewrite serve_snoc. destruct r as [chat msg|]; [|reflexivity].
  rewrite handle_chat.
  destruct (conversation_history (serve requests (startup table)))
    as [|[s|s|s] rest]; try discriminate IH.
  cbn [well_formed app] in *.
  apply andb_true_iff in IH. destruct IH as [Hs Hrest].
  rewrite Hs, (alternates_app _ _ Hrest). reflexivity.
Qed.

(** X1: whatever requests are served after start-up, the transcript keeps
    its shape: first the system turn with the standing instructions, then
    user and assistant turns in strict alternation. *)
Theorem transcript_stays_well_formed (requests : list Request)
    (table : option DataFrame) :
  well_formed (snapshot (serve requests (startup table))) = true.
Proof. apply served_history_well_formed. Qed.

(** X2: the transcript holds one turn, plus two for each chat request
    served since the last reset: nothing is ever dropped except by a reset,
    and a reset leaves exactly the system turn. *)
Theorem transcript_length (requests : list Request)
    (table : option DataFrame) :
  length (snapshot (serve requests (startup table)))
  = (1 + 2 * length (questions_since_clear requests))%nat.
Proof.
  unfold snapshot.
  induction requests as [|r requests IH] using rev_ind; [reflexivity|].
  rewrite serve_snoc. destruct r as [chat msg|].
  - rewrite handle_chat, questions_snoc_chat, !length_app, IH.
    cbn [length]. lia.
  - rewrite questions_snoc_clear. reflexivity.
Qed.

(** X3: a reset absorbs everything before it: after any requests followed
    by a reset the state is the table, untouched, and the one system turn,
    the state a reset gives at start-up. *)
Theorem reset_absorbs_history (requests : list Request) (st : State) :
  serve (requests ++ [PostClear]) st
  = mkState (df st) [SystemMessage reset_instructions]
  /\ serve (requests ++ [PostClear]) st = snd (clear_chat st).
Proof.
  rewrite serve_snoc. cbn [handle clear_chat seq write_history ret snd].
  unfold clear_chat, seq, write_history, ret. cbn [snd].
  rewrite serve_keeps_df. split; reflexivity.
Qed.

(** X4: the user turns of the transcript are the questions asked since the
    last reset, in order: each wrapped in the prompt with the digest of the
    table when the dataset is available, each as it was typed when the
    dataset is unavailable. *)
Theorem user_turns_are_the_questions (requests : list Request)
    (d : DataFrame) :
  (exists digest,
     get_dataset_summary (Some d) = Ok digest
     /\ human_bodies (snapshot (serve requests (startup (Some d))))
        = map (compose digest) (questions_since_clear requests))
  /\ human_bodies (snapshot (serve requests (startup None)))
     = questions_since_clear requests.
Proof.
  assert (Hgen : forall table,
             human_bodies (snapshot (serve requests (startup table)))
             = map (turn_body table) (questions_since_clear requests)).
  { intros table. unfold snapshot.
    induction requests as [|r requests IH] using rev_ind; [reflexivity|].
    rewrite serve_snoc. destruct r as [chat msg|].
    - rewrite handle_chat, questions_snoc_chat, map_app.
      unfold human_bodies in *. rewrite flat_map_app, IH.
      rewrite serve_keeps_df. reflexivity.
    - rewrite questions_snoc_clear. reflexivity. }
  split.
  - destruct (get_dataset_summary_total (Some d)) as (digest & Hd).
    exists digest. split; [exact Hd|]. rewrite Hgen.
    apply map_ext. intros msg. unfold turn_body. now rewrite Hd.
  - rewrite Hgen. apply map_id.
Qed.

(** X5: a chat request consults the answering service on one transcript
    only, and that transcript is a well-formed history followed by the new
    user turn: two services that agree on such transcripts give the same
    reply and leave the same state. *)
Theorem service_sees_only_prompts (requests : list Request)
    (table : option DataFrame) (chat1 chat2 : Service) (msg : string) :
  (forall h body,
     well_formed h = true ->
     chat1 (h ++ [HumanMessage body]) = chat2 (h ++ [HumanMessage body])) ->
  chat_route chat1 msg (serve requests (startup table))
  = chat_route chat2 msg (serve requests (startup table)).
Proof.
  intros Hagree. rewrite !chat_route_turn. cbv zeta.
  unfold answer. rewrite Hagree; [reflexivity|].
  apply served_history_well_formed.
Qed.

Lemma service_sees_only_prompts_witness :
  (forall h body,
     well_formed h = true ->
     (fun _ : list Message => @inr string string "ok"%string)
       (h ++ [HumanMessage body])
     = (fun t : list Message =>
          match t with
          | SystemMessage _ :: _ => inr "ok"%string
          | _ => inl "no system turn"%string
          end) (h ++ [HumanMessage body]))
  /\ chat_route (fun _ => inr "ok"%string) "second"
       (serve [PostChat (fun _ => inl "down"%string) "first"] (startup None))
     = chat_route
         (fun t => match t with
                   | SystemMessage _ :: _ => inr "ok"%string
                   | _ => inl "no system turn"%string
                   end)
         "second"
         (serve [PostChat (fun _ => inl "down"%string) "first"]
            (startup None)).
Proof.
  assert (Hagree : forall h body,
             well_formed h = true ->
             (fun _ : list Message => @inr string string "ok"%string)
               (h ++ [HumanMessage body])
             = (fun t : list Message =>
                  match t with
                  | SystemMessage _ :: _ => inr "ok"%string
                  | _ => inl "no system turn"%string
                  end) (h ++ [HumanMessage body])).
  { intros h body Hwf. destruct h as [|[s|s|s] rest];
      try discriminate Hwf. reflexivity. }
  split; [exact Hagree|].
  exact (service_sees_only_prompts
           [PostChat (fun _ => inl "down"%string) "first"] None _ _
           "second" Hagree).
Defined.

(** X6: the question can be read back from the stored user turn: for one
    digest, two questions that give the same composed body are the same
    question. *)
Theorem compose_keeps_the_question (digest msg1 msg2 : string) :
  compose digest msg1 = compose digest msg2 -> msg1 = msg2.
Proof.
  unfold compose. intros H.
  apply append_cancel_l in H. apply append_cancel_l in H.
  apply append_cancel_l in H. now apply append_cancel_r in H.
Qed.

Lemma compose_keeps_the_question_witness :
  compose "Dataset not available." "hi" = compose "Dataset not available." "hi"
  /\ "hi"%string = "hi"%string.
Proof.
  split; [reflexivity|].
  exact (compose_keeps_the_question "Dataset not available." "hi" "hi"
           eq_refl).
Defined.

End TranscriptProperties.

(* ================================================================== *)
(** * Further properties of the digest *)
(* ================================================================== *)

Section DigestProperties.

Import Series.
Local Open Scope list_scope.

(** X7: the digest builder never raises, whatever columns the table has
    or lacks and however many rows it holds: every column is read under the
    test for its name, the rate is divided under the test for a positive
    total, and every percentage is looked up under a label of the counts.
    The digest is never the empty string. *)
Theorem get_dataset_summary_never_raises (table : option DataFrame) :
  exists digest,
    get_dataset_summary table = Ok digest /\ digest <> ""%string.
Proof.
  destruct table as [d|].
  - destruct (get_dataset_summary_shape d) as (c & r & st & _ & _ & H & _).
    eexists. split; [exact H|]. unfold overview_block. discriminate.
  - exists not_available. split; [reflexivity|discriminate].
Qed.

(** X8: on a table whose flags are all 0 or 1 and which has a fraud row,
    the number of fraudulent transactions in the overview is the number the
    heading of the statistics announces. *)
Theorem overview_and_heading_agree (d : DataFrame) :
  binary_flags d ->
  (0 < len (fraud_frame d))%nat ->
  exists rate rest,
    get_dataset_summary (Some d)
    = Ok ((overview_block (len d) (Z.of_nat (len (fraud_frame d))) rate
           ++ key_columns_block)
          ++ statistics_heading (len (fraud_frame d)) ++ rest)%string.
Proof.
  intros Hbin Hpos.
  destruct (get_dataset_summary_shape d)
    as (count & rate & stats & Hc & _ & Hd & _ & Hstats).
  specialize (Hstats Hpos).
  destruct (fraud_statistics_shape (fraud_frame d))
    as (s1 & s2 & s3 & s4 & s5 & s6 & s7 & s8
        & _ & _ & _ & _ & _ & _ & _ & _ & Hshape).
  assert (Hst : stats
                = (statistics_heading (len (fraud_frame d))
                   ++ s1 ++ s2 ++ s3 ++ s4 ++ s5 ++ s6 ++ s7 ++ s8
                   ++ time_note (fraud_frame d))%string) by congruence.
  rewrite fraud_count_ok in Hc. apply Ok_inj in Hc.
  assert (Hcount : count = Z.of_nat (len (fraud_frame d))).
  { rewrite <- Hc. unfold fraud_frame, binary_flags in *.
    destruct (has_column "Fraud_Flag" d); [|reflexivity].
    now rewrite (sum_int_binary _ (Hbin eq_refl)). }
  exists rate. eexists. rewrite Hd, Hst, Hcount. reflexivity.
Qed.

Lemma overview_and_heading_agree_witness :
  binary_flags mixed_flags
  /\ (0 < len (fraud_frame mixed_flags))%nat
  /\ exists rate rest,
       get_dataset_summary (Some mixed_flags)
       = Ok ((overview_block 5 2 rate ++ key_columns_block)
             ++ statistics_heading 2 ++ rest)%string.
Proof.
  assert (Hbin : binary_flags mixed_flags).
  { intros _. repeat (constructor; [cbv; auto|]). constructor. }
  assert (Hpos : (0 < len (fraud_frame mixed_flags))%nat)
    by (vm_compute; lia).
  split; [exact Hbin|]. split; [exact Hpos|].
  exact (overview_and_heading_agree mixed_flags Hbin Hpos).
Defined.

(** X9: a full breakdown partitions the fraud rows by label: the labels
    listed are the labels that occur in the column, each listed once, each
    with a count of at least one, and the counts add up to the number of
    fraud rows whose cell is not blank. *)
Theorem full_breakdown_partitions_rows (f : DataFrame) (name : string)
    (proj : TransactionRow -> label) :
  has_column name f = true ->
  exists es,
    category_entries f name proj None = Ok es
    /\ NoDup (map entry_label es)
    /\ (forall k, In k (map entry_label es)
                  <-> In (Some k) (map proj (rows f)))
    /\ (forall e, In e es -> (1 <= entry_count e)%nat)
    /\ list_sum (map entry_count es)
       = length (labels (map proj (rows f))).
Proof.
  intros Hcol. rewrite (category_entries_ok _ _ _ _ Hcol).
  eexists. split; [reflexivity|]. cbn [listed_groups].
  set (col := map proj (rows f)).
  assert (Hlab : map entry_label (map (entry_of (len f)) (value_counts col))
                 = keys (value_counts col)).
  { rewrite map_map. reflexivity. }
  assert (Hcnt : map entry_count (map (entry_of (len f)) (value_counts col))
                 = map snd (value_counts col)).
  { rewrite map_map. reflexivity. }
  rewrite Hlab, Hcnt.
  split; [apply value_counts_NoDup|]. split; [|split].
  - intros k. split.
    + intros Hin. apply in_map_iff in Hin.
      destruct Hin as ([k' c] & Hk & Hin). cbn in Hk. subst k'.
      now apply value_counts_count in Hin.
    + intros Hin. apply in_map_iff.
      exists (k, occurrences col k). split; [reflexivity|].
      now apply value_counts_covers.
  - intros e He. apply in_map_iff in He. destruct He as ([k c] & <- & Hkc).
    apply value_counts_count in Hkc. destruct Hkc as [-> Hk].
    cbn. unfold occurrences. now apply count_occ_In.
  - apply value_counts_total.
Qed.

Lemma full_breakdown_partitions_rows_witness :
  has_column "Payment_Method" (fraud_frame blank_amounts) = true
  /\ exists es,
       category_entries (fraud_frame blank_amounts) "Payment_Method"
         Payment_Method None = Ok es
       /\ NoDup (map entry_label es)
       /\ list_sum (map entry_count es) = 2%nat.
Proof.
  assert (Hcol : has_column "Payment_Method" (fraud_frame blank_amounts)
                 = true) by reflexivity.
  split; [exact Hcol|].
  destruct (full_breakdown_partitions_rows (fraud_frame blank_amounts)
              "Payment_Method" Payment_Method Hcol)
    as (es & Hes & Hnd & _ & _ & Hsum).
  exists es. repeat split; assumption.
Defined.

(** X10: every percentage a breakdown prints, truncated or not, lies
    between 0 and 100. *)
Theorem printed_percentages_within_bounds (f : DataFrame) (name : string)
    (proj : TransactionRow -> label) (top : option nat) :
  has_column name f = true ->
  exists es,
    category_entries f name proj top = Ok es
    /\ (forall e, In e es -> (0 <= entry_pct e <= 100)%Q).
Proof.
  intros Hcol. rewrite (category_entries_ok _ _ _ _ Hcol).
  eexists. split; [reflexivity|].
  intros e He. apply in_map_iff in He. destruct He as ([k c] & <- & Hkc).
  apply listed_groups_incl, value_counts_count in Hkc.
  destruct Hkc as [-> Hk].
  assert (Hlen : length (map proj (rows f)) = len f) by apply length_map.
  assert (Hle : (occurrences (map proj (rows f)) k <= len f)%nat).
  { rewrite <- Hlen. apply count_occ_bound. }
  assert (Hpos : (0 < len f)%nat).
  { rewrite <- Hlen. destruct (map proj (rows f)); [contradiction|cbn; lia]. }
  cbn [entry_pct entry_of snd fst]. unfold pct_of.
  assert (Hb : (0 <= float_share (Z.of_nat (len f))
                       (Z.of_nat (occurrences (map proj (rows f)) k))
                <= 100)%Q)
    by (apply float_share_bounds; lia).
  destruct (round2_percent _ Hb) as (hundredths & _ & _ & Hr & _).
  exact Hr.
Qed.

Lemma printed_percentages_within_bounds_witness :
  has_column "Store_ID" (fraud_frame fifteen_stores) = true
  /\ exists es,
       category_entries (fraud_frame fifteen_stores) "Store_ID" Store_ID
         (Some 10%nat) = Ok es
       /\ (forall e, In e es -> (0 <= entry_pct e <= 100)%Q).
Proof.
  assert (Hcol : has_column "Store_ID" (fraud_frame fifteen_stores) = true)
    by reflexivity.
  split; [exact Hcol|].
  exact (printed_percentages_within_bounds (fraud_frame fifteen_stores)
           "Store_ID" Store_ID (Some 10%nat) Hcol).
Defined.

(** X11: when the fraud rows hold at most ten distinct values, cutting to
    the ten first groups drops nothing: the top-10 block lists the entries
    of the full breakdown. *)
Theorem top10_of_few_groups_is_full (f : DataFrame) (name : string)
    (proj : TransactionRow -> label) :
  has_column name f = true ->
  (length (distinct_labels (map proj (rows f))) <= 10)%nat ->
  category_entries f name proj (Some 10%nat)
  = category_entries f name proj None
  /\ exists es,
       category_entries f name proj (Some 10%nat) = Ok es
       /\ length es = length (distinct_labels (map proj (rows f))).
Proof.
  intros Hcol Hfew. rewrite !(category_entries_ok _ _ _ _ Hcol).
  cbn [listed_groups]. unfold head.
  rewrite firstn_all2 by (rewrite value_counts_distinct; exact Hfew).
  split; [reflexivity|]. eexists. split; [reflexivity|].
  rewrite length_map. apply value_counts_distinct.
Qed.

Lemma top10_of_few_groups_is_full_witness :
  has_column "Store_ID" (fraud_frame mixed_flags) = true
  /\ (length (distinct_labels
                (map Store_ID (rows (fraud_frame mixed_flags)))) <= 10)%nat
  /\ category_entries (fraud_frame mixed_flags) "Store_ID" Store_ID
       (Some 10%nat)
     = category_entries (fraud_frame mixed_flags) "Store_ID" Store_ID None.
Proof.
  assert (Hcol : has_column "Store_ID" (fraud_frame mixed_flags) = true)
    by reflexivity.
  assert (Hfew : (length (distinct_labels
                    (map Store_ID (rows (fraud_frame mixed_flags))))
                  <= 10)%nat) by (vm_compute; lia).
  split; [exact Hcol|]. split; [exact Hfew|].
  apply (top10_of_few_groups_is_full (fraud_frame mixed_flags)
           "Store_ID" Store_ID Hcol Hfew).
Defined.

Lemma dropna_all_blank (col : list (option Q)) :
  Forall (fun x => x = None) col -> dropna col = [].
Proof.
  induction 1 as [|x col Hx _ IH]; [reflexivity|]. subst x. exact IH.
Qed.

(** ** The sum of a column of zeros *)

Local Abbreviation all_zero := (Forall (fun q : Q => q = 0%Q)).

Lemma fillna0_all_blank (col : list (option Q)) :
  Forall (fun x => x = None) col -> all_zero (fillna0 col).
Proof.
  induction 1 as [|x col Hx _ IH]; [constructor|].
  subst x. constructor; [reflexivity|exact IH].
Qed.

Lemma all_zero_firstn (n : nat) (l : list Q) :
  all_zero l -> all_zero (firstn n l).
Proof.
  intros H. rewrite <- (firstn_skipn n l) in H.
  apply Forall_app in H. apply H.
Qed.

Lemma all_zero_skipn (n : nat) (l : list Q) :
  all_zero l -> all_zero (skipn n l).
Proof.
  intros H. rewrite <- (firstn_skipn n l) in H.
  apply Forall_app in H. apply H.
Qed.

Lemma fold_add_zeros (l : list Q) :
  all_zero l -> fold_left Float64.add l 0%Q = 0%Q.
Proof.
  induction 1 as [|q l Hq _ IH]; [reflexivity|].
  subst q. cbn [fold_left]. exact IH.
Qed.

Lemma add8_zeros (r chunk : list Q) :
  all_zero r -> all_zero chunk -> add8 r chunk = r.
Proof.
  intros Hr. revert chunk.
  induction Hr as [|x r Hx _ IH]; intros chunk Hc; [reflexivity|].
  destruct Hc as [|y chunk Hy Hc]; [reflexivity|].
  subst x y. cbn [add8]. rewrite (IH chunk Hc). reflexivity.
Qed.

Lemma accumulate8_zeros (fuel : nat) (r rest : list Q) :
  all_zero r -> all_zero rest -> accumulate8 fuel r rest = r.
Proof.
  revert rest. induction fuel as [|fuel IH]; intros rest Hr Hrest;
    [reflexivity|].
  cbn [accumulate8]. destruct rest as [|q rest']; [reflexivity|].
  rewrite add8_zeros by (try apply all_zero_firstn; assumption).
  apply IH; [assumption|now apply all_zero_skipn].
Qed.

Lemma combine8_zeros (r : list Q) : all_zero r -> combine8 r = 0%Q.
Proof.
  intros H. unfold combine8.
  do 8 (destruct H as [|? r ? H]; [reflexivity|]; subst).
  destruct H; reflexivity.
Qed.

Lemma block_sum_zeros (l : list Q) : all_zero l -> block_sum l = 0%Q.
Proof.
  intros H. unfold block_sum.
  rewrite accumulate8_zeros
    by (try apply all_zero_skipn; apply all_zero_firstn; assumption).
  rewrite (combine8_zeros _ (all_zero_firstn 8 l H)).
  apply fold_add_zeros. now apply all_zero_skipn.
Qed.

Lemma pairwise_sum_zeros (fuel : nat) (l : list Q) :
  all_zero l -> pairwise_sum fuel l = 0%Q.
Proof.
  revert l. induction fuel as [|fuel IH]; intros l H; cbn [pairwise_sum].
  - destruct (length l <? 8)%nat; [now apply fold_add_zeros|].
    destruct (length l <=? 128)%nat; now apply block_sum_zeros.
  - destruct (length l <? 8)%nat; [now apply fold_add_zeros|].
    destruct (length l <=? 128)%nat; [now apply block_sum_zeros|].
    rewrite (IH _ (all_zero_firstn _ l H)), (IH _ (all_zero_skipn _ l H)).
    reflexivity.
Qed.

(** X12: when the amount column exists and the amount of every fraud row
    is blank, the purchase block is still printed: the average, the median,
    the minimum and the maximum read "nan" and the total reads 0.00. *)
Theorem purchase_block_of_blank_amounts (f : DataFrame) :
  has_column "Purchase_Amount" f = true ->
  Forall (fun r => Purchase_Amount r = None) (rows f) ->
  purchase_section f = Ok purchase_block_without_amounts.
Proof.
  intros Hcol Hblank. unfold purchase_section.
  rewrite Hcol, (column_present _ _ _ Hcol). cbn [bind].
  assert (Hdrop : dropna (map Purchase_Amount (rows f)) = []).
  { apply dropna_all_blank. rewrite Forall_map. exact Hblank. }
  assert (Hsum : Series.sum (map Purchase_Amount (rows f)) = 0%Q).
  { unfold Series.sum. apply pairwise_sum_zeros, fillna0_all_blank.
    rewrite Forall_map. exact Hblank. }
  rewrite Hsum.
  unfold Series.mean, Series.median, Series.min, Series.max.
  rewrite Hdrop. reflexivity.
Qed.

Lemma purchase_block_of_blank_amounts_witness :
  has_column "Purchase_Amount" (fraud_frame blank_amounts) = true
  /\ Forall (fun r => Purchase_Amount r = None)
       (rows (fraud_frame blank_amounts))
  /\ purchase_section (fraud_frame blank_amounts)
     = Ok purchase_block_without_amounts.
Proof.
  assert (Hcol : has_column "Purchase_Amount" (fraud_frame blank_amounts)
                 = true) by reflexivity.
  assert (Hblank : Forall (fun r => Purchase_Amount r = None)
                     (rows (fraud_frame blank_amounts))).
  { repeat constructor. }
  split; [exact Hcol|]. split; [exact Hblank|].
  exact (purchase_block_of_blank_amounts (fraud_frame blank_amounts)
           Hcol Hblank).
Defined.

(** No fraud row out of [n] rows: the float share is 0. *)
Lemma float_share_zero (n : Z) : float_share n 0 = 0%Q.
Proof.
  unfold float_share, Float64.mul, Float64.div.
  assert (Hq : Float64.rnd (Float64.of_int 0 / Float64.of_int n) = 0%Q).
  { apply rnd_zero. change (Float64.of_int 0) with 0%Q.
    unfold Qdiv. ring. }
  rewrite Hq. reflexivity.
Qed.

(** Fixed-point formatting does not depend on how a rational is written. *)
Lemma format_fixed_comp (digits : nat) (q q' : Q) :
  (q == q')%Q -> format_fixed digits q = format_fixed digits q'.
Proof.
  intros H. unfold format_fixed.
  assert (Hr : round_half_even (Qabs q * inject_Z (pow10 digits))
               = round_half_even (Qabs q' * inject_Z (pow10 digits))).
  { apply round_half_even_comp. now rewrite H. }
  assert (Hs : Qle_bool 0 q = Qle_bool 0 q').
  { now rewrite H. }
  now rewrite Hr, Hs.
Qed.

(** X13: on a table without the flag column the digest is the header
    alone, and the header reports no fraud at all, whatever the rows hold:
    0 fraudulent transactions (0.00%), every row legitimate (100.00%). *)
Theorem missing_flag_column_reports_no_fraud (d : DataFrame) :
  has_column "Fraud_Flag" d = false ->
  get_dataset_summary (Some d)
  = Ok (overview_block (len d) 0 0 ++ key_columns_block)%string.
Proof.
  intros Hno. unfold get_dataset_summary.
  rewrite fraud_count_ok, Hno. cbn [bind].
  rewrite fraud_rate_ok. cbn [bind].
  rewrite fraud_rows_ok. cbn [bind].
  unfold fraud_frame. rewrite Hno.
  assert (Hempty : (0 <? len empty_frame)%nat = false) by reflexivity.
  rewrite Hempty.
  assert (Hrate : (if (0 <? len d)%nat
                   then float_share (Z.of_nat (len d)) 0 else 0%Q) = 0%Q).
  { destruct (0 <? len d)%nat; [|reflexivity]. apply float_share_zero. }
  rewrite Hrate. reflexivity.
Qed.

Lemma missing_flag_column_reports_no_fraud_witness :
  has_column "Fraud_Flag"
    (mkFrame ["Store_ID"%string] [sample_row 1 "Card" "S01"]) = false
  /\ get_dataset_summary
       (Some (mkFrame ["Store_ID"%string] [sample_row 1 "Card" "S01"]))
     = Ok (overview_block 1 0 0 ++ key_columns_block)%string.
Proof.
  split; [reflexivity|].
  exact (missing_flag_column_reports_no_fraud
           (mkFrame ["Store_ID"%string] [sample_row 1 "Card" "S01"])
           eq_refl).
Defined.

(** X14: the legitimate rows count only through their number: two tables
    with the same columns, the same number of rows and the same fraud rows,
    both with flags that are 0 or 1, have the same digest. *)
Theorem digest_reads_fraud_rows_only (d1 d2 : DataFrame) :
  columns d1 = columns d2 ->
  len d1 = len d2 ->
  binary_flags d1 -> binary_flags d2 ->
  filter is_fraud (rows d1) = filter is_fraud (rows d2) ->
  get_dataset_summary (Some d1) = get_dataset_summary (Some d2).
Proof.
  intros Hcols Hlen Hb1 Hb2 Hfraud.
  assert (Hhas : forall name, has_column name d1 = has_column name d2).
  { intros name. unfold has_column. now rewrite Hcols. }
  assert (Hframe : fraud_frame d1 = fraud_frame d2).
  { unfold fraud_frame. now rewrite Hhas, Hcols, Hfraud. }
  assert (Hcount : (if has_column "Fraud_Flag" d1
                    then sum_int (map Fraud_Flag (rows d1)) else 0%Z)
                   = (if has_column "Fraud_Flag" d2
                      then sum_int (map Fraud_Flag (rows d2)) else 0%Z)).
  { unfold binary_flags in *. rewrite <- Hhas in *.
    destruct (has_column "Fraud_Flag" d1); [|reflexivity].
    rewrite (sum_int_binary _ (Hb1 eq_refl)), (sum_int_binary _ (Hb2 eq_refl)).
    now rewrite Hfraud. }
  unfold get_dataset_summary.
  rewrite !fraud_count_ok. cbn [bind].
  rewrite !fraud_rate_ok. cbn [bind].
  rewrite !fraud_rows_ok. cbn [bind].
  now rewrite Hframe, Hcount, Hlen.
Qed.

Lemma digest_reads_fraud_rows_only_witness :
  columns mixed_flags = columns mixed_flags_other_legitimate
  /\ len mixed_flags = len mixed_flags_other_legitimate
  /\ binary_flags mixed_flags
  /\ binary_flags mixed_flags_other_legitimate
  /\ filter is_fraud (rows mixed_flags)
     = filter is_fraud (rows mixed_flags_other_legitimate)
  /\ get_dataset_summary (Some mixed_flags)
     = get_dataset_summary (Some mixed_flags_other_legitimate).
Proof.
  assert (Hb1 : binary_flags mixed_flags).
  { intros _. repeat (constructor; [cbv; auto|]). constructor. }
  assert (Hb2 : binary_flags mixed_flags_other_legitimate).
  { intros _. repeat (constructor; [cbv; auto|]). constructor. }
  split; [reflexivity|]. split; [reflexivity|].
  split; [exact Hb1|]. split; [exact Hb2|]. split; [reflexivity|].
  exact (digest_reads_fraud_rows_only mixed_flags
           mixed_flags_other_legitimate eq_refl eq_refl Hb1 Hb2 eq_refl).
Defined.

End DigestProperties.
